(** * Workspace symbol scanner of vscode-scss (src/services/scanner.ts)

    A shallow embedding of [scanner.ts]: the exclusion-pattern expansion and
    the file filter, the symbol extractor with its partial-file renaming, the
    freshness check against the cache, the wave-based resolution of imports
    and the final assembly of the result in [doScanner].

    Conventions of the embedding.
    - Paths are strings; [path.parse] and [path.format] are the POSIX
      versions of Node's [path] module.
    - A [Date] is the integer [getTime()] gives (type [Z]).
    - The cache ([ICache], [cache.get]/[cache.set]) and the file system are
      finite maps keyed by path.
    - A promise that settles is a [Result]; operations that the source issues
      concurrently ([Promise.all], the stream's file events) are run one after
      the other, in list order, which is one of the schedules the source
      admits.  The state that goes with a settled promise is the state once
      all of them have finished.
    - The glob matcher is the package [micromatch], called without options;
      [Pattern] has a model of it that covers [**], [*], [?], literal
      segments, the rule for segments that start with a dot, and negated
      patterns.
    - The state threaded through the scanner is the cache together with a
      log of the file-system and parser calls that were made. *)

From Stdlib Require Import String Ascii ZArith List Bool Lia.
From stdpp Require Import base option list gmap strings fin_maps.

Open Scope string_scope.
Open Scope Z_scope.

(** ** Strings *)

Module Str.

Definition slash : ascii := "/"%char.
Definition dot : ascii := "."%char.
Definition underscore : ascii := "_"%char.

(** [s.startsWith(String c "")] *)
Definition starts_with_char (c : ascii) (s : string) : bool :=
  match s with
  | String d _ => Ascii.eqb c d
  | EmptyString => false
  end.

(** [s.replace(/^_/, '')]: drops one leading underscore, if there is one. *)
Definition drop_leading_underscore (s : string) : string :=
  match s with
  | String d r => if Ascii.eqb underscore d then r else s
  | EmptyString => EmptyString
  end.

(** Does the character [c] occur in [s]? *)
Fixpoint mem (c : ascii) (s : string) : bool :=
  match s with
  | EmptyString => false
  | String d r => Ascii.eqb c d || mem c r
  end.

(** Is [s] made of the character [c] only? *)
Fixpoint only (c : ascii) (s : string) : bool :=
  match s with
  | EmptyString => true
  | String d r => Ascii.eqb c d && only c r
  end.

(** [s] without the run of [c] at its end. *)
Fixpoint strip_trailing (c : ascii) (s : string) : string :=
  match s with
  | EmptyString => EmptyString
  | String d r => if only c s then EmptyString else String d (strip_trailing c r)
  end.

(** Cuts [s] at the last occurrence of [c]: the part before it and the part
    after it; [None] when [c] does not occur. *)
Fixpoint split_last (c : ascii) (s : string) : option (string * string) :=
  match s with
  | EmptyString => None
  | String d r =>
      match split_last c r with
      | Some (a, b) => Some (String d a, b)
      | None => if Ascii.eqb c d then Some (EmptyString, r) else None
      end
  end.

(** [s.split(c)]: the pieces between the occurrences of [c]. *)
Fixpoint split (c : ascii) (s : string) : list string :=
  match s with
  | EmptyString => [EmptyString]
  | String d r =>
      if Ascii.eqb c d then EmptyString :: split c r
      else match split c r with
           | x :: xs => String d x :: xs
           | [] => [String d EmptyString]
           end
  end.

(** What follows [p] in [s], when [s] starts with [p]. *)
Fixpoint strip_prefix (p s : string) : option string :=
  match p with
  | EmptyString => Some s
  | String c p' =>
      match s with
      | String d s' => if Ascii.eqb c d then strip_prefix p' s' else None
      | EmptyString => None
      end
  end.

(** The last character of [s]. *)
Fixpoint last_char (s : string) : option ascii :=
  match s with
  | EmptyString => None
  | String c EmptyString => Some c
  | String _ r => last_char r
  end.

(** [s.slice(-n) === t] for [n = t.length]: [t] is what [s] ends with. *)
Definition ends_with (t s : string) : bool :=
  let n := String.length s in
  let k := String.length t in
  String.eqb (String.substring (n - k) k s) t.

End Str.

(** ** Node's [path] module (POSIX flavour) *)

Module Path.

(** [path.ParsedPath] *)
Record ParsedPath := mkParsed {
  root : string;
  dir : string;
  base : string;
  ext : string;
  name : string
}.

(** The [name] and [ext] of a base name: the extension starts at the last
    dot, unless that dot is the first character of the base or the base is
    [".."]. *)
Definition name_ext (b : string) : string * string :=
  match Str.split_last Str.dot b with
  | None => (b, EmptyString)
  | Some (n, e) =>
      if String.eqb n EmptyString then (b, EmptyString)
      else if String.eqb b ".." then (b, EmptyString)
      else (n, String Str.dot e)
  end.

(** [path.parse(p)].  The root is ["/"] for an absolute path; slashes at
    the end are ignored; the base is what follows the last remaining slash
    and the directory is what precedes it. *)
Definition parse (p : string) : ParsedPath :=
  match p with
  | EmptyString => mkParsed "" "" "" "" ""
  | String c r =>
      let absolute := Ascii.eqb c Str.slash in
      let rt := if absolute then "/" else "" in
      let body := Str.strip_trailing Str.slash (if absolute then r else p) in
      let '(d, b) :=
        match Str.split_last Str.slash body with
        | Some (d, b) => (rt +:+ d, b)
        | None => (rt, body)
        end in
      let '(n, e) := name_ext b in
      mkParsed rt d b e n
  end.

(** [Object.assign(parsed, { base: b })] *)
Definition with_base (o : ParsedPath) (b : string) : ParsedPath :=
  mkParsed (root o) (dir o) b (ext o) (name o).

(** [path.format(o)]: [dir || root], then [base || name + ext]. *)
Definition format (o : ParsedPath) : string :=
  let d := if String.eqb (dir o) "" then root o else dir o in
  let b := if String.eqb (base o) "" then name o +:+ ext o else base o in
  if String.eqb d "" then b
  else if String.eqb d (root o) then d +:+ b
  else d +:+ "/" +:+ b.

(** [path.dirname(p)]: the first character is never scanned, slashes at the
    end are ignored, and the result stops before the last remaining slash. *)
Definition dirname (p : string) : string :=
  match p with
  | EmptyString => "."
  | String c r =>
      let hasRoot := Ascii.eqb c Str.slash in
      match Str.split_last Str.slash (Str.strip_trailing Str.slash r) with
      | None => if hasRoot then "/" else "."
      | Some (d, _) =>
          if hasRoot && String.eqb d "" then "//" else String c d
      end
  end.

End Path.

(** ** Data model *)

(** [IVariable], [IMixin], [IFunction] and [IImport] of [types/symbols] *)
Record IVariable := mkVariable {
  var_name : string;
  var_value : option string;
  var_offset : Z
}.

Record IMixin := mkMixin {
  mixin_name : string;
  mixin_parameters : list IVariable;
  mixin_offset : Z
}.

Record IImport := mkImport {
  imp_filepath : string;
  imp_dynamic : bool;
  imp_css : bool
}.

(** [ISymbols]: the table of one document.  [ctime] is absent on a table
    that was put in the cache by hand (as the tests of the repository do). *)
Record ISymbols := mkSymbols {
  document : string;
  variables : list IVariable;
  mixins : list IMixin;
  functions : list IMixin;
  imports : list IImport;
  ctime : option Z
}.

(** [symbols.ctime = t] *)
Definition set_ctime (t : Z) (s : ISymbols) : ISymbols :=
  mkSymbols (document s) (variables s) (mixins s) (functions s) (imports s) (Some t).

(** [symbols.document = d] *)
Definition set_document (d : string) (s : ISymbols) : ISymbols :=
  mkSymbols d (variables s) (mixins s) (functions s) (imports s) (ctime s).

(** The fields of [ISettings] the scanner reads.  [scannerExclude] may be
    missing, and [scanImportedFilesDepth] is compared with [===]. *)
Record ISettings := mkSettings {
  scannerExclude : option (list string);
  scannerDepth : Z;
  scanImportedFiles : bool;
  scanImportedFilesDepth : Z;
  showErrors : bool
}.

(** [settings.scannerExclude] after a mutation of that array *)
Definition set_scannerExclude (e : option (list string)) (s : ISettings) : ISettings :=
  mkSettings e (scannerDepth s) (scanImportedFiles s) (scanImportedFilesDepth s)
    (showErrors s).

(** [IFile] *)
Record IFile := mkFile {
  file_filepath : string;
  file_dir : string;
  file_ctime : Z
}.

(** [readdir.IEntry]: what the directory stream hands to the filter and to
    the file handler. *)
Record IEntry := mkEntry {
  entry_path : string;
  entry_isFile : bool;
  entry_ctime : Z
}.

(** A file on disk: its modification time and its contents, [None] when the
    file cannot be read. *)
Record FileNode := mkNode {
  node_ctime : Z;
  node_data : option string
}.

(** Why a promise was rejected. *)
Inductive Err :=
| ReadError (p : string)
| ParseError (p : string)
| WalkError (p : string).

(** A settled promise. *)
Inductive Result (A : Type) :=
| Resolved (a : A)
| Rejected (e : Err).
Arguments Resolved {A} a.
Arguments Rejected {A} e.

(** Calls that leave the scanner. *)
Inductive Event :=
| EvStat (p : string)
| EvRead (p : string)
| EvParse (p : string).

(** The state the scanner works on: the shared cache and the calls made. *)
Record State := mkState {
  cache : gmap string ISymbols;
  trace : list Event
}.

Definition emit (e : Event) (st : State) : State :=
  mkState (cache st) (trace st ++ [e]).

(** [cache.set(k, v)] *)
Definition cache_set (k : string) (v : ISymbols) (st : State) : State :=
  mkState (<[k := v]> (cache st)) (trace st).

(** [cache.get(k)] *)
Definition cache_get (k : string) (st : State) : option ISymbols :=
  cache st !! k.

(** Was the parser run on the document [p]? *)
Definition parsed_in (p : string) (t : list Event) : bool :=
  existsb (fun e => match e with EvParse q => String.eqb p q | _ => false end) t.

(** Was the file [p] read? *)
Definition read_in (p : string) (t : list Event) : bool :=
  existsb (fun e => match e with EvRead q => String.eqb p q | _ => false end) t.

(** How often was the file [p] stat-ed? *)
Definition stat_count (p : string) (t : list Event) : nat :=
  length (List.filter
            (fun e => match e with EvStat q => String.eqb p q | _ => false end) t).

(** ** Patterns *)

Module Pattern.

(** [\w] of a JavaScript regular expression: [A-Za-z0-9_]. *)
Definition is_word_char (c : ascii) : bool :=
  let n := N_of_ascii c in
  ((48 <=? n) && (n <=? 57) || (65 <=? n) && (n <=? 90)
   || (97 <=? n) && (n <=? 122) || (n =? 95))%N.

(** The class [[\w\.-]]. *)
Definition is_name_char (c : ascii) : bool :=
  is_word_char c || Ascii.eqb c "."%char || Ascii.eqb c "-"%char.

Fixpoint all_name_chars (s : string) : bool :=
  match s with
  | EmptyString => true
  | String c r => is_name_char c && all_name_chars r
  end.

(** [s] without its last character when that character is a slash: what
    the optional [\/?] before [$] can consume. *)
Fixpoint drop_final_slash (s : string) : string :=
  match s with
  | EmptyString => EmptyString
  | String c EmptyString => if Ascii.eqb c Str.slash then EmptyString else s
  | String c r => String c (drop_final_slash r)
  end.

(** [reGlobBaseName.test(pattern)] for
    [reGlobBaseName = /^\*\*\/([\w\.-]+)\/?$/]. *)
Definition reGlobBaseName_test (pattern : string) : bool :=
  match Str.strip_prefix "**/" pattern with
  | Some rest =>
      let nm := drop_final_slash rest in
      negb (String.eqb nm "") && all_name_chars nm
  | None => false
  end.

(** One path segment against one pattern segment: [*] stands for any run of
    characters and [?] for one character. *)
Fixpoint wild (p s : string) : bool :=
  match p with
  | EmptyString => String.eqb s ""
  | String c p' =>
      if Ascii.eqb c "*"%char then
        (fix star (t : string) : bool :=
           wild p' t || match t with
                        | EmptyString => false
                        | String _ t' => star t'
                        end) s
      else
        match s with
        | EmptyString => false
        | String d s' => (Ascii.eqb c "?"%char || Ascii.eqb c d) && wild p' s'
        end
  end.

(** Does a path segment start with a dot?  [scannerFilter] calls the
    matcher without options, so the [dot] option is off and such a segment
    is matched only by a pattern segment that spells the dot out. *)
Definition dotSegment (s : string) : bool := Str.starts_with_char Str.dot s.

(** One path segment against one pattern segment, with the dot rule: a
    wildcard never stands for the dot a segment starts with. *)
Definition segmentMatch (p s : string) : bool :=
  if dotSegment s && negb (dotSegment p) then false else wild p s.

(** The segments of a path against the segments of a pattern: the segment
    [**] stands for any number of path segments, none included, but it does
    not cross a segment that starts with a dot. *)
Fixpoint glob (pat path : list string) : bool :=
  match pat with
  | [] => match path with [] => true | _ => false end
  | seg :: pat' =>
      if String.eqb seg "**" then
        (fix skip (l : list string) : bool :=
           glob pat' l || match l with
                          | [] => false
                          | s :: l' => negb (dotSegment s) && skip l'
                          end) path
      else
        match path with
        | [] => false
        | s :: path' => segmentMatch seg s && glob pat' path'
        end
  end.

(** A run of slashes in a pattern counts as one slash. *)
Fixpoint collapse_slashes (s : string) : string :=
  match s with
  | EmptyString => EmptyString
  | String c r =>
      if Ascii.eqb c Str.slash && Str.starts_with_char Str.slash r
      then collapse_slashes r
      else String c (collapse_slashes r)
  end.

(** Does the glob [pattern] match [path]? *)
Definition isMatch (path pattern : string) : bool :=
  glob (Str.split Str.slash (collapse_slashes pattern)) (Str.split Str.slash path).

(** A pattern that starts with [!] is a negated one; what follows the [!]
    is the glob whose matches are taken away. *)
Definition negated (pattern : string) : option string :=
  Str.strip_prefix "!" pattern.

(** Does one of the patterns that are not negated match [path]? *)
Definition kept (path : string) (patterns : list string) : bool :=
  existsb (fun pattern =>
             match negated pattern with
             | Some _ => false
             | None => isMatch path pattern
             end) patterns.

(** Does the glob of one of the negated patterns match [path]? *)
Definition omitted (path : string) (patterns : list string) : bool :=
  existsb (fun pattern =>
             match negated pattern with
             | Some body => isMatch path body
             | None => false
             end) patterns.

(** [micromatch([path], patterns).length !== 0].  The matcher is the
    third-party package [micromatch], called without options; this is a
    model of it.  With a list of patterns it collects the matches of the
    patterns that are not negated and takes away the matches of the negated
    ones, so a path is in the result when a plain pattern matches it and no
    negated one does.  Of the pattern language, [**], [*], [?], literal
    segments, the dot rule and negation are covered; braces, classes and
    extended globs are not. *)
Definition micromatch (path : string) (patterns : list string) : bool :=
  kept path patterns && negb (omitted path patterns).

End Pattern.

(** ** The scanner *)

(** What the directory stream produces for one entry it visits: the entry,
    or an error. *)
Inductive StreamItem :=
| Found (e : IEntry)
| Failure (err : Err).

(** The world outside the scanner: the files on disk, and what
    [readdir.readdirStreamStat(root, {deep})] visits, in order, before the
    filter is applied. *)
Record World := mkWorld {
  fs : gmap string FileNode;
  readdirStreamStat : string -> Z -> list StreamItem
}.

(** [statFile(p)], resolved with the modification time or rejected. *)
Definition statFile (w : World) (p : string) : option Z :=
  node_ctime <$> fs w !! p.

(** [readFile(p)], resolved with the contents or rejected. *)
Definition readFile (w : World) (p : string) : option string :=
  fs w !! p ≫= node_data.

(** [makeEntryFile] *)
Definition makeEntryFile (filepath : string) (ct : Z) : IFile :=
  mkFile filepath (Path.dirname filepath) ct.

(** [cached && cached.ctime && cached.ctime.getTime() >= entry.ctime.getTime()]:
    the cached table when the test holds. *)
Definition fresh (cached : option ISymbols) (entry : IFile) : option ISymbols :=
  match cached with
  | Some c =>
      match ctime c with
      | Some t => if file_ctime entry <=? t then Some c else None
      | None => None
      end
  | None => None
  end.

(** The document path [makeSymbolsForDocument] gives to a file: the base
    loses one leading underscore. *)
Definition documentPath (filepath : string) : string :=
  let parsed := Path.parse filepath in
  if Str.starts_with_char Str.underscore (Path.base parsed)
  then Path.format (Path.with_base parsed (Str.drop_leading_underscore (Path.base parsed)))
  else filepath.

(** What may stand before the base of a path: nothing, or a directory and a
    slash; the directory is not the root written as one slash, because
    [path.parse] takes a doubled leading slash for the root. *)
Definition dirPrefix (pre : string) : Prop :=
  pre = "" \/ exists d, d <> "/" /\ pre = d +:+ "/".

(** The partial-file sibling of an import target: [_] before the base. *)
Definition partialPath (filepath : string) : string :=
  let original := Path.parse filepath in
  Path.format (Path.with_base original ("_" +:+ Path.base original)).

(** [Promise.all]: the values when every promise is resolved, else the
    first rejection. *)
Fixpoint promiseAll {A : Type} (l : list (Result A)) : Result (list A) :=
  match l with
  | [] => Resolved []
  | Rejected e :: _ => Rejected e
  | Resolved a :: r =>
      match promiseAll r with
      | Resolved t => Resolved (a :: t)
      | Rejected e => Rejected e
      end
  end.

(** [resolve] or [reject] on a promise: only the first call counts. *)
Definition settle {A : Type} (now : option (Result A)) (r : Result A) : option (Result A) :=
  match now with
  | Some _ => now
  | None => Some r
  end.

(** [settings.scannerExclude.forEach(...)] with the [push] in its body: the
    loop visits the patterns the array had when it started, and the new
    patterns go to the end of that same array. *)
Definition expandExclude (patterns : list string) : list string :=
  patterns ++ map (fun pattern => pattern +:+ "/**")
                  (List.filter Pattern.reGlobBaseName_test patterns).

(** Does [path] have a segment equal to [name]: is it [name] itself, or
    does it end with the entry [name], or lie below a directory [name]? *)
Definition hasSegment (name path : string) : Prop :=
  In name (Str.split Str.slash path).

(** None of the segments starts with a dot. *)
Definition plainSegments (segments : list string) : Prop :=
  Forall (fun s => Pattern.dotSegment s = false) segments.

(** [path] has the segment [name], after the segments [pre] and before the
    segments [rest], and none of these other segments starts with a dot. *)
Definition plainAround (name path : string) (pre rest : list string) : Prop :=
  Str.split Str.slash path = (pre ++ name :: rest)%list
  /\ plainSegments pre /\ plainSegments rest.

(** [scannerFilter] *)
Definition scannerFilter (stat : IEntry) (excludePatterns : option (list string)) : bool :=
  if match excludePatterns with
     | Some ps => Pattern.micromatch (entry_path stat) ps
     | None => false
     end
  then false
  else if entry_isFile stat then Str.ends_with ".scss" (entry_path stat)
  else true.

Section Scanner.

(** The extraction of the declarations of a document from its text, which
    [services/parser.ts] does: given the document path, the text and the
    settings, a table or a failure. *)
Variable extract : string -> string -> ISettings -> option ISymbols.

(** Modelled from the spec: [parseDocument] of [services/parser.ts], which
    is not among the sources.  The spec gives the parser the contract
    [parse(text, path, options) -> SymbolTable], pure and fallible, and
    makes [document] the path of the file the table describes. *)
Definition parseDocument (uri text : string) (settings : ISettings) : option ISymbols :=
  set_document uri <$> extract uri text settings.

Variable w : World.

(** [makeSymbolsForDocument]: read the file, rename a partial, parse, stamp
    the modification time, store the table in the cache. *)
Definition makeSymbolsForDocument (entry : IFile) (settings : ISettings)
    (st : State) : Result ISymbols * State :=
  let st1 := emit (EvRead (file_filepath entry)) st in
  match readFile w (file_filepath entry) with
  | None => (Rejected (ReadError (file_filepath entry)), st1)
  | Some data =>
      let filepath := documentPath (file_filepath entry) in
      let st2 := emit (EvParse filepath) st1 in
      match parseDocument filepath data settings with
      | None => (Rejected (ParseError filepath), st2)
      | Some symbols =>
          let symbols' := set_ctime (file_ctime entry) symbols in
          (Resolved symbols', cache_set filepath symbols' st2)
      end
  end.

(** Is [p] the document of a table of [symbolsList]?  (The [for] loop of
    [recurse].) *)
Definition isKnown (symbolsList : list ISymbols) (p : string) : bool :=
  existsb (fun s => String.eqb (document s) p) symbolsList.

(** What one import record adds to [importedFiles]. *)
Definition importCandidates (symbolsList : list ISymbols) (x : IImport) : list string :=
  if imp_dynamic x || imp_css x then []
  else if isKnown symbolsList (imp_filepath x) then []
  else [imp_filepath x; partialPath (imp_filepath x)].

(** [importedFiles] after the two nested [forEach] over [list] (here
    [lst]). *)
Definition importedFiles (symbolsList lst : list ISymbols) : list string :=
  flat_map (fun item => flat_map (importCandidates symbolsList) (imports item)) lst.

(** One element of the [Promise.all] of [recurse]: stat the candidate, take
    the cached table when it is fresh, else extract; any failure gives
    [null]. *)
Definition probe (settings : ISettings) (filepath : string) (st : State)
    : option ISymbols * State :=
  let st1 := emit (EvStat filepath) st in
  match statFile w filepath with
  | None => (None, st1)
  | Some ct =>
      let entry := makeEntryFile filepath ct in
      match fresh (cache_get filepath st1) entry with
      | Some cached => (Some cached, st1)
      | None =>
          match makeSymbolsForDocument entry settings st1 with
          | (Resolved symbols, st2) => (Some symbols, st2)
          | (Rejected _, st2) => (None, st2)
          end
      end
  end.

(** The [Promise.all] over [importedFiles], already filtered with
    [Boolean]. *)
Fixpoint probeAll (settings : ISettings) (files : list string) (st : State)
    : list ISymbols * State :=
  match files with
  | [] => ([], st)
  | f :: r =>
      let '(o, st1) := probe settings f st in
      let '(l, st2) := probeAll settings r st1 in
      (match o with Some s => s :: l | None => l end, st2)
  end.

(** [recurse] of [scannerImportedFiles], with [lst] for the argument the
    source calls [list].  [nesting] is the counter the
    closure shares; the result carries its final value.  [fuel] bounds the
    number of calls: [None] means that the recursion did not come to an
    end within it. *)
Fixpoint recurse (fuel : nat) (symbolsList : list ISymbols) (settings : ISettings)
    (nesting : Z) (accum lst : list ISymbols) (st : State)
    : option (list ISymbols * Z * State) :=
  match fuel with
  | O => None
  | S fuel' =>
      if match lst with [] => true | _ => false end
         || (nesting =? scanImportedFilesDepth settings)
      then Some (accum, nesting, st)
      else
        match importedFiles symbolsList lst with
        | [] => Some (accum, nesting, st)
        | files =>
            let '(resultList, st') := probeAll settings files st in
            recurse fuel' symbolsList settings (nesting + 1)
              (accum ++ resultList)%list resultList st'
        end
  end.

(** [scannerImportedFiles] *)
Definition scannerImportedFiles (fuel : nat) (symbolsList : list ISymbols)
    (settings : ISettings) (st : State) : option (list ISymbols * Z * State) :=
  recurse fuel symbolsList settings 0 [] symbolsList st.

(** The handler of the stream's [file] event: one more element of
    [listOfPromises]. *)
Definition onFile (settings : ISettings) (stat : IEntry) (st : State)
    : Result ISymbols * State :=
  let entry := makeEntryFile (entry_path stat) (entry_ctime stat) in
  match fresh (cache_get (file_filepath entry) st) entry with
  | Some cached => (Resolved cached, st)
  | None => makeSymbolsForDocument entry settings st
  end.

(** The run of the stream up to its [end] event: the entries that pass the
    filter and are files go to [onFile]; an error rejects the promise of
    [doScanner] when [showErrors] is set. *)
Fixpoint runStream (settings : ISettings) (excludePatterns : option (list string))
    (items : list StreamItem) (settled : option (Result (list ISymbols)))
    (st : State)
    : list (Result ISymbols) * option (Result (list ISymbols)) * State :=
  match items with
  | [] => ([], settled, st)
  | Failure err :: r =>
      let settled' := if showErrors settings then settle settled (Rejected err)
                      else settled in
      runStream settings excludePatterns r settled' st
  | Found stat :: r =>
      if scannerFilter stat excludePatterns && entry_isFile stat then
        let '(p, st1) := onFile settings stat st in
        let '(ps, settled', st2) := runStream settings excludePatterns r settled st1 in
        (p :: ps, settled', st2)
      else runStream settings excludePatterns r settled st
  end.

(** What a call of [doScanner] leaves: the settings object as the call
    left it, and, when the promise settles within [fuel], how it settled,
    together with the state once every read and extraction that the call
    has started has run to its end.  When the promise is rejected, that
    state is not the state at the moment of the rejection: [Promise.all]
    rejects with the first failure while other reads may still be pending,
    and their tables reach the cache afterwards. *)
Record Scan := mkScan {
  scan_settings : ISettings;
  scan_promise : option (Result (list ISymbols) * State)
}.

(** [doScanner] *)
Definition doScanner (fuel : nat) (root : string) (settings : ISettings) (st : State)
    : Scan :=
  let excludePatterns := expandExclude <$> scannerExclude settings in
  let settings := set_scannerExclude excludePatterns settings in
  let items := readdirStreamStat w root (scannerDepth settings) in
  let '(listOfPromises, settled, st1) :=
    runStream settings excludePatterns items None st in
  mkScan settings
    match promiseAll listOfPromises with
    | Resolved projectSymbols =>
        if scanImportedFiles settings then
          match scannerImportedFiles fuel projectSymbols settings st1 with
          | Some (importedSymbols, _, st2) =>
              option_map (fun r => (r, st2))
                (settle settled (Resolved (projectSymbols ++ importedSymbols)%list))
          | None => None
          end
        else option_map (fun r => (r, st1))
               (settle settled (Resolved (projectSymbols ++ [])%list))
    | Rejected err =>
        let settled' := if showErrors settings then settle settled (Rejected err)
                        else settled in
        option_map (fun r => (r, st1)) (settle settled' (Resolved ([] ++ [])%list))
    end.

End Scanner.

(** The outcome of a settled scan, and the state it left. *)
Definition scan_result (s : Scan) : option (Result (list ISymbols)) :=
  fst <$> scan_promise s.

Definition scan_state (s : Scan) : option State :=
  snd <$> scan_promise s.

(** The settings object after a series of calls of [doScanner] on it, each
    call with its own fuel, root and state. *)
Fixpoint doScannerCalls extract w (calls : list (nat * string * State))
    (settings : ISettings) : ISettings :=
  match calls with
  | [] => settings
  | (fuel, root, st) :: r =>
      doScannerCalls extract w r (scan_settings (doScanner extract w fuel root settings st))
  end.

(** One wave of import resolution on the frontier [lst]: the candidates of
    its import records are probed. *)
Definition wave extract w (symbolsList : list ISymbols) (settings : ISettings)
    (lst : list ISymbols) (st : State) : list ISymbols * State :=
  probeAll extract w settings (importedFiles symbolsList lst) st.

(** The frontier after [k] waves, starting from the project tables, and the
    state then. *)
Fixpoint frontier extract w (symbolsList : list ISymbols) (settings : ISettings)
    (k : nat) (st : State) : list ISymbols * State :=
  match k with
  | O => (symbolsList, st)
  | S k' =>
      let '(l, st') := frontier extract w symbolsList settings k' st in
      wave extract w symbolsList settings l st'
  end.

(** The tables that the waves [1] to [k] produce, in order. *)
Fixpoint waves extract w (symbolsList : list ISymbols) (settings : ISettings)
    (k : nat) (st : State) : list ISymbols :=
  match k with
  | O => []
  | S k' =>
      (waves extract w symbolsList settings k' st
       ++ fst (frontier extract w symbolsList settings k st))%list
  end.

(** ** Test fixtures *)

Module Fixture.

(** The double quote. *)
Definition dq : string := String "034"%char EmptyString.

(** The text between the first and the last character. *)
Definition unquote (s : string) : string :=
  String.substring 1 (String.length s - 2) s.

Fixpoint has_interpolation (s : string) : bool :=
  match s with
  | String "#" (String "{" _) => true
  | String _ r => has_interpolation r
  | EmptyString => false
  end.

(** The import record of one statement [@import <quoted name>]; the target
    is resolved against the directory of the importing document and gets
    the stylesheet extension. *)
Definition import_of (dir stmt : string) : list IImport :=
  match Str.strip_prefix "@import " stmt with
  | None => []
  | Some q =>
      let n := unquote q in
      if has_interpolation n then [mkImport n true false]
      else if Str.ends_with ".css" n then [mkImport (dir +:+ "/" +:+ n) false true]
      else [mkImport (dir +:+ "/" +:+ n +:+ ".scss") false false]
  end.

(** A stand-in for the parser: the statements of the text are separated by
    semicolons, only the imports are collected, and the text ["@error"]
    does not parse. *)
Definition extract (uri text : string) (_ : ISettings) : option ISymbols :=
  if String.eqb text "@error" then None
  else Some (mkSymbols uri [] [] []
               (flat_map (import_of (Path.dirname uri)) (Str.split ";"%char text))
               None).

Definition import_stmt (n : string) : string := "@import " +:+ dq +:+ n +:+ dq +:+ ";".

Definition file (p : string) (t : Z) (text : string) : string * FileNode :=
  (p, mkNode t (Some text)).

Definition unreadable (p : string) (t : Z) : string * FileNode :=
  (p, mkNode t None).

Definition found (p : string) (t : Z) : StreamItem := Found (mkEntry p true t).
Definition found_dir (p : string) (t : Z) : StreamItem := Found (mkEntry p false t).

(** A world whose stream gives [items] for the root [r] and nothing for
    any other root. *)
Definition world (r : string) (files : list (string * FileNode)) (items : list StreamItem)
    : World :=
  mkWorld (list_to_map files)
          (fun root _ => if String.eqb root r then items else []).

Definition settings (exclude : list string) (depth : Z) (strict : bool) : ISettings :=
  mkSettings (Some exclude) 20 true depth strict.

Definition empty : State := mkState ∅ [].

(** The documents of the tables of a result. *)
Definition documents (l : list ISymbols) : list string := map document l.

(** Best-effort scan: [a.scss] is fine, [b.scss] cannot be read. *)
Definition w_unreadable : World :=
  world "/w"
    [file "/w/a.scss" 10 "$x: 1;"; unreadable "/w/b.scss" 10]
    [found "/w/a.scss" 10; found "/w/b.scss" 10].

(** [a.scss] imports [b], which is the partial [_b.scss]. *)
Definition w_partial : World :=
  world "/r"
    [file "/r/a.scss" 5 (import_stmt "b"); file "/r/_b.scss" 7 "$c: red;"]
    [found "/r/a.scss" 5; found "/r/_b.scss" 7].

(** [a.scss] imports [lib/b], a partial in a directory that the
    exclusion patterns keep out of the project scan. *)
Definition w_lib_partial : World :=
  world "/r"
    [file "/r/a.scss" 5 (import_stmt "lib/b"); file "/r/lib/_b.scss" 7 "$c: red;"]
    [found "/r/a.scss" 5; found_dir "/r/lib" 7; found "/r/lib/_b.scss" 7].

(** [a.scss] imports [lib/x], and [lib/x.scss] imports itself. *)
Definition w_self : World :=
  world "/r"
    [file "/r/a.scss" 5 (import_stmt "lib/x");
     file "/r/lib/x.scss" 6 (import_stmt "x")]
    [found "/r/a.scss" 5; found_dir "/r/lib" 6; found "/r/lib/x.scss" 6].

(** [lib/x.scss] and [lib/y.scss] import each other; [a.scss] imports
    [lib/x]. *)
Definition w_cycle : World :=
  world "/r"
    [file "/r/a.scss" 5 (import_stmt "lib/x");
     file "/r/lib/x.scss" 6 (import_stmt "y");
     file "/r/lib/y.scss" 6 (import_stmt "x")]
    [found "/r/a.scss" 5; found_dir "/r/lib" 6;
     found "/r/lib/x.scss" 6; found "/r/lib/y.scss" 6].

(** Two project files that import each other. *)
Definition w_mutual : World :=
  world "/r"
    [file "/r/p.scss" 5 (import_stmt "q"); file "/r/q.scss" 5 (import_stmt "p")]
    [found "/r/p.scss" 5; found "/r/q.scss" 5].

(** A chain of seven imports below [a.scss]. *)
Definition w_chain : World :=
  world "/r"
    [file "/r/a.scss" 5 (import_stmt "lib/f1");
     file "/r/lib/f1.scss" 6 (import_stmt "f2");
     file "/r/lib/f2.scss" 6 (import_stmt "f3");
     file "/r/lib/f3.scss" 6 (import_stmt "f4");
     file "/r/lib/f4.scss" 6 (import_stmt "f5");
     file "/r/lib/f5.scss" 6 (import_stmt "f6");
     file "/r/lib/f6.scss" 6 (import_stmt "f7");
     file "/r/lib/f7.scss" 6 "$end: 0;"]
    [found "/r/a.scss" 5].

(** The table of a project file with one import, as the project scan
    leaves it. *)
Definition table (doc : string) (t : Z) (target : string) : ISymbols :=
  mkSymbols doc [] [] [] [mkImport target false false] (Some t).

(** The project tables of [w_self], [w_cycle] and [w_chain] when [lib] is
    excluded, and those of [w_mutual]. *)
Definition project_self : list ISymbols := [table "/r/a.scss" 5 "/r/lib/x.scss"].
Definition project_chain : list ISymbols := [table "/r/a.scss" 5 "/r/lib/f1.scss"].
Definition project_mutual : list ISymbols :=
  [table "/r/p.scss" 5 "/r/q.scss"; table "/r/q.scss" 5 "/r/p.scss"].

(** The table of [lib/x.scss] in [w_self]. *)
Definition table_self : ISymbols := table "/r/lib/x.scss" 6 "/r/lib/x.scss".

(** The files of [w_chain] by their place in the chain, with their texts and
    what the parser extracts from them. *)
Definition chain_file (i : nat) : string :=
  nth i ["/r/a.scss"; "/r/lib/f1.scss"; "/r/lib/f2.scss"; "/r/lib/f3.scss";
         "/r/lib/f4.scss"; "/r/lib/f5.scss"; "/r/lib/f6.scss"; "/r/lib/f7.scss"] "".

Definition chain_text (i : nat) : string :=
  nth i [import_stmt "lib/f1"; import_stmt "f2"; import_stmt "f3"; import_stmt "f4";
         import_stmt "f5"; import_stmt "f6"; import_stmt "f7"; "$end: 0;"] "".

Definition chain_body (i : nat) : ISymbols :=
  mkSymbols (chain_file i) [] [] []
    (if (i <? 7)%nat then [mkImport (chain_file (S i)) false false] else []) None.

End Fixture.

(** ** The stream seen from outside *)

(** The entries of the stream that reach the file handler: those that pass
    the filter and are files, in the order of the stream. *)
Fixpoint acceptedFiles (excludePatterns : option (list string))
    (items : list StreamItem) : list IEntry :=
  match items with
  | [] => []
  | Failure _ :: r => acceptedFiles excludePatterns r
  | Found stat :: r =>
      if scannerFilter stat excludePatterns && entry_isFile stat
      then stat :: acceptedFiles excludePatterns r
      else acceptedFiles excludePatterns r
  end.

(** The first error of the stream. *)
Fixpoint firstFailure (items : list StreamItem) : option Err :=
  match items with
  | [] => None
  | Failure err :: _ => Some err
  | Found _ :: r => firstFailure r
  end.

(** The stream without its errors. *)
Fixpoint dropFailures (items : list StreamItem) : list StreamItem :=
  match items with
  | [] => []
  | Failure _ :: r => dropFailures r
  | Found stat :: r => Found stat :: dropFailures r
  end.

(** Is the cached table [c] at least as recent as the time [t]? *)
Definition recentAs (c : ISymbols) (t : Z) : Prop :=
  exists t', ctime c = Some t' /\ t <= t'.

(** More worlds and states for the examples. *)
(** The entry under [p] carries a time that is at least [t]. *)
Definition timedFrom (p : string) (t : Z) (st : State) : Prop :=
  exists c' t', cache st !! p = Some c' /\ ctime c' = Some t' /\ t <= t'.

Module Sample.

(** [w_partial] with a directory that cannot be listed, before and after
    the files. *)
Definition w_errors : World :=
  Fixture.world "/r"
    [Fixture.file "/r/a.scss" 5 (Fixture.import_stmt "b");
     Fixture.file "/r/_b.scss" 7 "$c: red;"]
    [Failure (WalkError "/r/locked"); Fixture.found "/r/a.scss" 5;
     Fixture.found "/r/_b.scss" 7; Failure (WalkError "/r/other")].

(** One stylesheet, one file of another kind, one directory. *)
Definition w_mixed : World :=
  Fixture.world "/r"
    [Fixture.file "/r/a.scss" 5 "$x: 1;"; Fixture.file "/r/notes.txt" 5 "hello"]
    [Fixture.found "/r/a.scss" 5; Fixture.found "/r/notes.txt" 5;
     Fixture.found_dir "/r/lib" 5].

(** A table for [a.scss] as a scan at the time [t] leaves it. *)
Definition table_a (t : Z) : ISymbols := mkSymbols "/r/a.scss" [] [] [] [] (Some t).

(** The cache with that table only, and the cache with a table for
    [a.scss] that carries no time. *)
Definition cached_a (t : Z) : State := mkState {[ "/r/a.scss" := table_a t ]} [].

Definition cached_a_untimed : State :=
  mkState {[ "/r/a.scss" := mkSymbols "/r/a.scss" [] [] [] [] None ]} [].

(** A directory with a file whose name is the underscore alone. *)
Definition w_underscore : World :=
  Fixture.world "/r" [Fixture.file "/r/_" 4 "$x: 1;"] [Fixture.found "/r/_" 4].

(** A stylesheet and the partial of the same name, the partial the older
    one; and the cache with the table of the stylesheet. *)
Definition w_both : World :=
  Fixture.world "/r"
    [Fixture.file "/r/p.scss" 9 "$x: 1;"; Fixture.file "/r/_p.scss" 7 "$y: 2;"]
    [Fixture.found "/r/p.scss" 9; Fixture.found "/r/_p.scss" 7].

Definition cached_p : State :=
  mkState {[ "/r/p.scss" := mkSymbols "/r/p.scss" [] [] [] [] (Some 9) ]} [].

End Sample.

(** * Properties *)

(** ** The path functions on examples *)

Example parse_abs :
  Path.parse "/r/lib/_b.scss" = Path.mkParsed "/" "/r/lib" "_b.scss" ".scss" "_b".
Proof. reflexivity. Qed.

Example parse_root_file :
  Path.parse "/foo.scss" = Path.mkParsed "/" "/" "foo.scss" ".scss" "foo".
Proof. reflexivity. Qed.

Example parse_rel :
  Path.parse "a//b.tar.gz/" = Path.mkParsed "" "a/" "b.tar.gz" ".gz" "b.tar".
Proof. reflexivity. Qed.

Example parse_hidden : Path.parse ".bashrc" = Path.mkParsed "" "" ".bashrc" "" ".bashrc".
Proof. reflexivity. Qed.

Example format_parse : Path.format (Path.parse "/r/lib/_b.scss") = "/r/lib/_b.scss".
Proof. reflexivity. Qed.

Example dirname_abs : Path.dirname "/r/lib/_b.scss" = "/r/lib".
Proof. reflexivity. Qed.

Example dirname_rel : Path.dirname "a.scss" = ".".
Proof. reflexivity. Qed.

Example documentPath_partial : documentPath "/r/lib/_b.scss" = "/r/lib/b.scss".
Proof. reflexivity. Qed.

Example documentPath_not_partial : documentPath "/r/lib/b.scss" = "/r/lib/b.scss".
Proof. reflexivity. Qed.

Example documentPath_two_underscores : documentPath "/r/__b.scss" = "/r/_b.scss".
Proof. reflexivity. Qed.

(** A file called [_] keeps its name: the empty base makes [path.format]
    fall back on [name + ext]. *)
Example documentPath_underscore_only : documentPath "/r/_" = "/r/_".
Proof. reflexivity. Qed.

(** Directly below a doubled leading slash the directory is the root, and
    one of the two slashes is lost. *)
Example documentPath_double_slash : documentPath "//_b.scss" = "/b.scss".
Proof. reflexivity. Qed.

Example partialPath_abs : partialPath "/r/lib/b.scss" = "/r/lib/_b.scss".
Proof. reflexivity. Qed.

Example reGlobBaseName_examples :
  map Pattern.reGlobBaseName_test
    ["**/vendor"; "**/vendor/"; "**/node_modules"; "**/a.b-c"; "**/vendor/**";
     "**/"; "**//"; "vendor"; "**/a/b"; "**/*.js"; "*/vendor"]
  = [true; true; true; true; false; false; false; false; false; false; false].
Proof. reflexivity. Qed.

Example isMatch_examples :
  map (fun p => Pattern.micromatch p ["**/vendor"; "**/vendor/**"])
    ["vendor"; "/r/vendor"; "/r/vendor/a.scss"; "/r/x/vendor/y/z.scss";
     "/r/not-vendor/a.scss"; "/r/vendor.scss"; "/r/a.scss";
     "/r/.cache/vendor/c.scss"]
  = [true; true; true; true; false; false; false; false].
Proof. reflexivity. Qed.

Example micromatch_examples :
  Pattern.micromatch "/r/lib/a.scss" ["**/lib/**"; "!**/a.scss"] = false
  /\ Pattern.micromatch "/r/lib/b.scss" ["**/lib/**"; "!**/a.scss"] = true
  /\ Pattern.micromatch "/r/vendor/a.scss" ["**/vendor//**"] = true.
Proof. repeat split; reflexivity. Qed.

(** ** Strings and paths *)

Lemma append_cons (a : ascii) (s t : string) : String a s +:+ t = String a (s +:+ t).
Proof. reflexivity. Qed.

Lemma append_nil_l (t : string) : "" +:+ t = t.
Proof. reflexivity. Qed.

Lemma append_nil_r (s : string) : s +:+ "" = s.
Proof.
  induction s as [|a s IH]; [reflexivity|]. now rewrite append_cons, IH.
Qed.

Lemma append_assoc (a b d : string) : (a +:+ b) +:+ d = a +:+ b +:+ d.
Proof.
  induction a as [|x a IH]; [reflexivity|]. now rewrite !append_cons, IH.
Qed.

Section StrFacts.
Variable c : ascii.

Lemma mem_app (x y : string) : Str.mem c (x +:+ y) = Str.mem c x || Str.mem c y.
Proof.
  induction x as [|a x IH]; [reflexivity|].
  rewrite append_cons. simpl. rewrite IH. apply orb_assoc.
Qed.

Lemma only_absent (s : string) :
  Str.mem c s = false -> s <> "" -> Str.only c s = false.
Proof.
  destruct s as [|d r]; simpl; [congruence|].
  intros H _. apply orb_false_elim in H as [-> _]. reflexivity.
Qed.

Lemma only_app_absent (x rest : string) :
  Str.mem c rest = false -> rest <> "" -> Str.only c (x +:+ rest) = false.
Proof.
  intros Hm Hne. induction x as [|a x IH].
  - apply only_absent; assumption.
  - rewrite append_cons. simpl. rewrite IH. apply andb_false_r.
Qed.

Lemma strip_trailing_absent (s : string) :
  Str.mem c s = false -> Str.strip_trailing c s = s.
Proof.
  induction s as [|d r IH]; [reflexivity|].
  intros H. simpl in H. apply orb_false_elim in H as [Hd Hr].
  cbn [Str.strip_trailing Str.only]. rewrite Hd. simpl. rewrite IH; auto.
Qed.

Lemma strip_trailing_app (x rest : string) :
  Str.mem c rest = false -> rest <> "" ->
  Str.strip_trailing c (x +:+ rest) = x +:+ rest.
Proof.
  intros Hm Hne. induction x as [|a x IH].
  - apply strip_trailing_absent, Hm.
  - rewrite append_cons. cbn [Str.strip_trailing Str.only].
    rewrite only_app_absent, andb_false_r, IH by assumption. reflexivity.
Qed.

Lemma split_last_absent (s : string) :
  Str.mem c s = false -> Str.split_last c s = None.
Proof.
  induction s as [|d r IH]; [reflexivity|].
  simpl. intros H. apply orb_false_elim in H as [Hd Hr].
  rewrite IH, Hd; auto.
Qed.

Lemma split_last_app (x rest : string) :
  Str.mem c rest = false ->
  Str.split_last c (x +:+ String c rest) = Some (x, rest).
Proof.
  intros Hm. induction x as [|a x IH].
  - rewrite append_nil_l. simpl.
    rewrite split_last_absent, Ascii.eqb_refl by assumption. reflexivity.
  - rewrite append_cons. simpl. rewrite IH. reflexivity.
Qed.
Lemma strip_trailing_dir_base (x b : string) :
  Str.mem c b = false -> b <> "" ->
  Str.strip_trailing c (x +:+ String c b) = x +:+ String c b.
Proof.
  intros Hm Hne. change (String c b) with (String c "" +:+ b).
  rewrite <- append_assoc. apply strip_trailing_app; assumption.
Qed.
End StrFacts.

Lemma format_dir_base (rt d b e n : string) :
  d <> "" -> b <> "" -> d <> rt ->
  Path.format (Path.mkParsed rt d b e n) = d +:+ "/" +:+ b.
Proof.
  intros Hd Hb Hr. unfold Path.format. simpl.
  apply String.eqb_neq in Hd, Hb, Hr. rewrite Hd, Hb. cbn iota.
  rewrite Hd, Hr. reflexivity.
Qed.

Lemma format_root_base (rt b e n : string) :
  b <> "" -> Path.format (Path.mkParsed rt rt b e n) = rt +:+ b.
Proof.
  intros Hb. unfold Path.format. simpl.
  apply String.eqb_neq in Hb. rewrite Hb.
  destruct (String.eqb_spec rt "") as [->|Hrt]; [reflexivity|].
  cbn iota. apply String.eqb_neq in Hrt. rewrite Hrt, String.eqb_refl. reflexivity.
Qed.

(** [path.parse] on a path that ends with a base free of slashes. *)
Lemma parse_dir_base (d b : string) :
  Str.mem Str.slash b = false -> b <> "" -> d <> "/" ->
  exists e n,
    Path.parse (d +:+ "/" +:+ b)
    = Path.mkParsed (if Str.starts_with_char Str.slash d || String.eqb d "" then "/" else "")
        (if String.eqb d "" then "/" else d) b e n.
Proof.
  intros Hm Hne Hd.
  destruct d as [|a d].
  - change ("" +:+ "/" +:+ b) with (String Str.slash b).
    cbn [Path.parse]. rewrite Ascii.eqb_refl.
    rewrite strip_trailing_absent, split_last_absent by assumption.
    destruct (Path.name_ext b) as [n e]. simpl. eauto.
  - change (String a d +:+ "/" +:+ b) with (String a (d +:+ String Str.slash b)).
    cbn [Path.parse Str.starts_with_char].
    rewrite (Ascii.eqb_sym Str.slash a).
    destruct (Ascii.eqb_spec a Str.slash) as [->|Ha].
    + rewrite strip_trailing_dir_base, split_last_app by assumption.
      destruct (Path.name_ext b) as [n e]. simpl. eauto.
    + rewrite <- append_cons.
      rewrite strip_trailing_dir_base, split_last_app by assumption.
      destruct (Path.name_ext b) as [n e]. simpl. eauto.
Qed.

Lemma documentPath_in_dir (d rest : string) :
  Str.mem Str.slash rest = false -> rest <> "" -> d <> "/" ->
  documentPath (d +:+ "/" +:+ "_" +:+ rest) = d +:+ "/" +:+ rest.
Proof.
  intros Hm Hne Hd.
  change ("_" +:+ rest) with (String Str.underscore rest).
  destruct (parse_dir_base d (String Str.underscore rest)) as (e & n & Hp);
    [exact Hm | discriminate | exact Hd |].
  unfold documentPath. rewrite Hp.
  cbn [Path.base Str.starts_with_char Str.drop_leading_underscore Path.with_base
       Path.root Path.dir Path.ext Path.name].
  rewrite Ascii.eqb_refl.
  destruct (String.eqb_spec d "") as [->|Hd0].
  - change (Path.format (Path.mkParsed "/" "/" rest e n) = "/" +:+ rest).
    apply format_root_base; assumption.
  - apply format_dir_base; try assumption.
    destruct d as [|a d]; [congruence|]. cbn [Str.starts_with_char].
    destruct (Ascii.eqb_spec Str.slash a) as [<-|]; cbn; [exact Hd | congruence].
Qed.

Lemma documentPath_no_dir (rest : string) :
  Str.mem Str.slash rest = false -> rest <> "" ->
  documentPath ("_" +:+ rest) = rest.
Proof.
  intros Hm Hne. unfold documentPath.
  change ("_" +:+ rest) with (String Str.underscore rest).
  cbn [Path.parse]. change (Ascii.eqb Str.underscore Str.slash) with false. cbn iota.
  rewrite strip_trailing_absent, split_last_absent by exact Hm.
  destruct (Path.name_ext (String Str.underscore rest)) as [n e]. cbn.
  unfold Path.format. cbn.
  apply String.eqb_neq in Hne. rewrite Hne. reflexivity.
Qed.

(** The paths whose base starts with an underscore, and what
    [documentPath] makes of them. *)
Lemma documentPath_underscore (pre rest : string) :
  dirPrefix pre -> Str.mem Str.slash rest = false -> rest <> "" ->
  documentPath (pre +:+ "_" +:+ rest) = pre +:+ rest.
Proof.
  intros [->|(d & Hd & ->)] Hm Hne.
  - apply documentPath_no_dir; assumption.
  - rewrite !append_assoc. apply documentPath_in_dir; assumption.
Qed.

(** A path whose base does not start with an underscore is its own
    document path. *)
Lemma documentPath_plain (p : string) :
  Str.starts_with_char Str.underscore (Path.base (Path.parse p)) = false ->
  documentPath p = p.
Proof. unfold documentPath. intros ->. reflexivity. Qed.

(** ** The symbol extractor *)

Section Extractor.

Variable extract : string -> string -> ISettings -> option ISymbols.
Variable w : World.

(** A file that can be read and parsed: the table, and the state after. *)
Lemma makeSymbols_resolved (entry : IFile) (settings : ISettings) (st : State)
    (data : string) (s : ISymbols) :
  readFile w (file_filepath entry) = Some data ->
  extract (documentPath (file_filepath entry)) data settings = Some s ->
  makeSymbolsForDocument extract w entry settings st
  = (Resolved (set_ctime (file_ctime entry)
                 (set_document (documentPath (file_filepath entry)) s)),
     cache_set (documentPath (file_filepath entry))
       (set_ctime (file_ctime entry)
          (set_document (documentPath (file_filepath entry)) s))
       (emit (EvParse (documentPath (file_filepath entry)))
          (emit (EvRead (file_filepath entry)) st))).
Proof.
  intros Hr He. unfold makeSymbolsForDocument, parseDocument.
  rewrite Hr, He. reflexivity.
Qed.

(** A file that cannot be read: the promise is rejected and the cache is
    left as it was. *)
Lemma makeSymbols_unreadable (entry : IFile) (settings : ISettings) (st : State) :
  readFile w (file_filepath entry) = None ->
  makeSymbolsForDocument extract w entry settings st
  = (Rejected (ReadError (file_filepath entry)),
     emit (EvRead (file_filepath entry)) st).
Proof. intros Hr. unfold makeSymbolsForDocument. rewrite Hr. reflexivity. Qed.

Lemma parsed_in_app (p : string) (t1 t2 : list Event) :
  parsed_in p (t1 ++ t2) = parsed_in p t1 || parsed_in p t2.
Proof. apply existsb_app. Qed.

Lemma fresh_None (entry : IFile) : fresh None entry = None.
Proof. reflexivity. Qed.

(** The file handler on a file that the cache does not hold under its
    path. *)
Lemma onFile_miss (settings : ISettings) (stat : IEntry) (st : State) :
  cache st !! entry_path stat = None ->
  onFile extract w settings stat st
  = makeSymbolsForDocument extract w
      (makeEntryFile (entry_path stat) (entry_ctime stat)) settings st.
Proof.
  intros H. unfold onFile, cache_get. cbn [makeEntryFile file_filepath].
  rewrite H. reflexivity.
Qed.

(** C8, as the code has it: a file whose base is an underscore followed
    by at least one more character, in a directory that is not the root
    written as a doubled slash, is parsed, reported and cached under the
    path without that one underscore; the rest of the path is kept, and no
    other key of the cache is written.  The project scan reports that table
    for the file. *)
Theorem C8_partial_stored_without_underscore (pre rest data : string) (ct : Z)
    (s : ISymbols) (settings : ISettings) (st : State) :
  dirPrefix pre -> Str.mem Str.slash rest = false -> rest <> "" ->
  readFile w (pre +:+ "_" +:+ rest) = Some data ->
  extract (pre +:+ rest) data settings = Some s ->
  exists t st',
    makeSymbolsForDocument extract w (makeEntryFile (pre +:+ "_" +:+ rest) ct)
      settings st = (Resolved t, st')
    /\ document t = pre +:+ rest
    /\ ctime t = Some ct
    /\ cache st' = <[pre +:+ rest := t]> (cache st)
    /\ parsed_in (pre +:+ rest) (trace st') = true
    /\ (cache st !! (pre +:+ "_" +:+ rest) = None ->
        onFile extract w settings (mkEntry (pre +:+ "_" +:+ rest) true ct) st
        = (Resolved t, st')).
Proof.
  intros Hpre Hm Hne Hr He.
  pose proof (documentPath_underscore pre rest Hpre Hm Hne) as Hdoc.
  pose proof (makeSymbols_resolved (makeEntryFile (pre +:+ "_" +:+ rest) ct)
                settings st data s Hr) as Hmk.
  cbn [makeEntryFile file_filepath file_ctime] in Hmk. rewrite Hdoc in Hmk.
  specialize (Hmk He).
  eexists _, _. split; [exact Hmk|].
  split; [reflexivity|]. split; [reflexivity|]. split; [reflexivity|]. split.
  - cbn [cache_set emit trace]. rewrite !parsed_in_app. cbn.
    rewrite String.eqb_refl. apply orb_true_r.
  - intros Hc. rewrite onFile_miss by exact Hc. exact Hmk.
Qed.

End Extractor.

Lemma C8_partial_stored_without_underscore_witness :
  exists t st',
    makeSymbolsForDocument Fixture.extract Fixture.w_partial
      (makeEntryFile "/r/_b.scss" 7) (Fixture.settings [] 1 false) Fixture.empty
    = (Resolved t, st')
    /\ document t = "/r/b.scss"
    /\ ctime t = Some 7
    /\ cache st' = <["/r/b.scss" := t]> (cache Fixture.empty)
    /\ parsed_in "/r/b.scss" (trace st') = true
    /\ (cache Fixture.empty !! "/r/_b.scss" = None ->
        onFile Fixture.extract Fixture.w_partial (Fixture.settings [] 1 false)
          (mkEntry "/r/_b.scss" true 7) Fixture.empty
        = (Resolved t, st')).
Proof.
  apply (C8_partial_stored_without_underscore Fixture.extract Fixture.w_partial
           "/r/" "b.scss" "$c: red;" 7
           (mkSymbols "/r/b.scss" [] [] [] [] None)).
  - right. exists "/r". split; [discriminate | reflexivity].
  - reflexivity.
  - discriminate.
  - vm_compute. reflexivity.
  - vm_compute. reflexivity.
Defined.

(** C8 as the specification states it fails for the base that is the
    underscore alone: [path.format] falls back on [name + ext] when the
    base it is given is empty, and the name still has the underscore, so
    the file [/r/_] is parsed, reported and cached under [/r/_]; nothing is
    stored under [/r/].  And the rest of the path is not always kept: in
    [//_b.scss] the doubled slash is taken for the root and written back as
    one slash. *)
Lemma C8_counterexample :
  Str.starts_with_char Str.underscore (Path.base (Path.parse "/r/_")) = true
  /\ fst (makeSymbolsForDocument Fixture.extract Sample.w_underscore
            (makeEntryFile "/r/_" 4) (Fixture.settings [] 1 false) Fixture.empty)
     = Resolved (mkSymbols "/r/_" [] [] [] [] (Some 4))
  /\ cache (snd (makeSymbolsForDocument Fixture.extract Sample.w_underscore
                   (makeEntryFile "/r/_" 4) (Fixture.settings [] 1 false)
                   Fixture.empty))
     = {[ "/r/_" := mkSymbols "/r/_" [] [] [] [] (Some 4) ]}
  /\ parsed_in "/r/_"
       (trace (snd (makeSymbolsForDocument Fixture.extract Sample.w_underscore
                      (makeEntryFile "/r/_" 4) (Fixture.settings [] 1 false)
                      Fixture.empty))) = true
  /\ Str.starts_with_char Str.underscore (Path.base (Path.parse "//_b.scss")) = true
  /\ documentPath "//_b.scss" = "/b.scss".
Proof. repeat split; vm_compute; reflexivity. Qed.

(** ** Exclusion patterns *)

Lemma strip_prefix_spec (p s rest : string) :
  Str.strip_prefix p s = Some rest <-> s = p +:+ rest.
Proof.
  revert s. induction p as [|c p IH]; intros s.
  - rewrite append_nil_l. simpl. split; congruence.
  - rewrite append_cons. destruct s as [|d s]; simpl; [split; discriminate|].
    destruct (Ascii.eqb_spec c d) as [->|Hcd].
    + rewrite IH. split; congruence.
    + split; [discriminate | congruence].
Qed.

Lemma last_char_cons (a : ascii) (s : string) :
  s <> "" -> Str.last_char (String a s) = Str.last_char s.
Proof. destruct s; [congruence | reflexivity]. Qed.

Lemma last_char_app (x y : string) :
  y <> "" -> Str.last_char (x +:+ y) = Str.last_char y.
Proof.
  intros Hy. induction x as [|a x IH]; [reflexivity|].
  rewrite append_cons, last_char_cons, IH; [reflexivity|].
  destruct x; [rewrite append_nil_l; exact Hy | rewrite append_cons; discriminate].
Qed.

Lemma name_char_not_slash (c : ascii) :
  Pattern.is_name_char c = true -> Ascii.eqb Str.slash c = false.
Proof.
  intros H. destruct (Ascii.eqb_spec Str.slash c) as [<-|]; [discriminate H | reflexivity].
Qed.

Lemma all_name_chars_no_slash (s : string) :
  Pattern.all_name_chars s = true -> Str.mem Str.slash s = false.
Proof.
  induction s as [|c r IH]; [reflexivity|].
  cbn [Str.mem Pattern.all_name_chars]. intros H. apply andb_true_iff in H as [Hc Hr].
  rewrite (name_char_not_slash c Hc), IH by assumption. reflexivity.
Qed.

Lemma all_name_chars_last (s : string) (c : ascii) :
  Pattern.all_name_chars s = true -> Str.last_char s = Some c ->
  Pattern.is_name_char c = true.
Proof.
  induction s as [|d r IH]; [discriminate|].
  cbn [Pattern.all_name_chars]. intros H. apply andb_true_iff in H as [Hd Hr].
  destruct r as [|e r]; [intros [= <-]; exact Hd | intros Hl; apply IH; assumption].
Qed.

Lemma drop_final_slash_last (s : string) (c : ascii) :
  Str.last_char s = Some c -> c <> Str.slash -> Pattern.drop_final_slash s = s.
Proof.
  induction s as [|d r IH]; [reflexivity|].
  destruct r as [|e r].
  - intros [= <-] Hc. simpl.
    destruct (Ascii.eqb_spec d Str.slash); [contradiction | reflexivity].
  - intros Hl Hc. change (Pattern.drop_final_slash (String d (String e r)))
      with (String d (Pattern.drop_final_slash (String e r))).
    rewrite IH; [reflexivity | exact Hl | exact Hc].
Qed.

Lemma drop_final_slash_no_slash (s : string) :
  Str.mem Str.slash s = false -> Pattern.drop_final_slash s = s.
Proof.
  induction s as [|d r IH]; [reflexivity|].
  cbn [Str.mem]. intros H. apply orb_false_elim in H as [Hd Hr].
  destruct r as [|e r].
  - cbn [Pattern.drop_final_slash]. rewrite Ascii.eqb_sym, Hd. reflexivity.
  - change (Pattern.drop_final_slash (String d (String e r)))
      with (String d (Pattern.drop_final_slash (String e r))).
    rewrite IH by exact Hr. reflexivity.
Qed.

(** The expression accepts [**/<name>]. *)
Lemma reGlobBaseName_name (name : string) :
  name <> "" -> Pattern.all_name_chars name = true ->
  Pattern.reGlobBaseName_test ("**/" +:+ name) = true.
Proof.
  intros Hne Hall. unfold Pattern.reGlobBaseName_test.
  replace (Str.strip_prefix "**/" ("**/" +:+ name)) with (Some name)
    by (symmetry; apply strip_prefix_spec; reflexivity).
  rewrite drop_final_slash_no_slash by (apply all_name_chars_no_slash, Hall).
  rewrite Hall. apply String.eqb_neq in Hne. rewrite Hne. reflexivity.
Qed.

(** The expression never accepts a pattern that ends with [/**]: what the
    expansion appends is not expanded again. *)
Lemma reGlobBaseName_expanded (p : string) :
  Pattern.reGlobBaseName_test (p +:+ "/**") = false.
Proof.
  unfold Pattern.reGlobBaseName_test.
  destruct (Str.strip_prefix "**/" (p +:+ "/**")) as [rest|] eqn:Hs; [|reflexivity].
  apply strip_prefix_spec in Hs.
  assert (Hl : Str.last_char ("**/" +:+ rest) = Some "*"%char)
    by (rewrite <- Hs; apply last_char_app; discriminate).
  destruct rest as [|a rest]; [discriminate Hl|].
  rewrite last_char_app in Hl by discriminate.
  rewrite (drop_final_slash_last _ _ Hl) by discriminate.
  destruct (Pattern.all_name_chars (String a rest)) eqn:Hall; [|apply andb_false_r].
  pose proof (all_name_chars_last _ _ Hall Hl) as Hc. discriminate Hc.
Qed.

Lemma filter_expanded (l : list string) :
  List.filter Pattern.reGlobBaseName_test (map (fun q => q +:+ "/**") l) = [].
Proof.
  induction l as [|p l IH]; [reflexivity|].
  cbn [map List.filter]. rewrite reGlobBaseName_expanded. exact IH.
Qed.

Lemma filter_expandExclude (pats : list string) :
  List.filter Pattern.reGlobBaseName_test (expandExclude pats)
  = List.filter Pattern.reGlobBaseName_test pats.
Proof.
  unfold expandExclude. rewrite List.filter_app, filter_expanded. apply app_nil_r.
Qed.

Lemma expandExclude_keeps (pats : list string) (p : string) :
  In p pats -> In p (expandExclude pats).
Proof. intros H. apply in_or_app. left. exact H. Qed.

Lemma expandExclude_adds (pats : list string) (p : string) :
  In p pats -> Pattern.reGlobBaseName_test p = true ->
  In (p +:+ "/**") (expandExclude pats).
Proof.
  intros H Ht. apply in_or_app. right.
  apply (in_map (fun q => q +:+ "/**")). apply List.filter_In. split; assumption.
Qed.

Lemma expandExclude_length (pats : list string) :
  length (expandExclude pats)
  = (length pats + length (List.filter Pattern.reGlobBaseName_test pats))%nat.
Proof. unfold expandExclude. rewrite length_app, length_map. reflexivity. Qed.

(** ** Glob matching *)

Lemma split_not_nil (c : ascii) (s : string) : Str.split c s <> [].
Proof.
  destruct s as [|d r]; [discriminate|]. simpl.
  destruct (Ascii.eqb c d); [discriminate|]. destruct (Str.split c r); discriminate.
Qed.

Lemma split_absent (c : ascii) (s : string) :
  Str.mem c s = false -> Str.split c s = [s].
Proof.
  induction s as [|d r IH]; [reflexivity|].
  cbn [Str.mem Str.split]. intros H. apply orb_false_elim in H as [Hd Hr].
  rewrite Hd, IH by exact Hr. reflexivity.
Qed.

(** Splitting distributes over a separator. *)
Lemma split_app (c : ascii) (a b : string) :
  Str.split c (a +:+ String c b) = (Str.split c a ++ Str.split c b)%list.
Proof.
  induction a as [|d a IH].
  - rewrite append_nil_l. cbn [Str.split]. rewrite Ascii.eqb_refl. reflexivity.
  - rewrite append_cons. cbn [Str.split]. rewrite IH.
    destruct (Ascii.eqb c d); [reflexivity|].
    destruct (Str.split c a) as [|x xs] eqn:Hx; [|reflexivity].
    exfalso. exact (split_not_nil c a Hx).
Qed.

Lemma name_char_not_star (c : ascii) :
  Pattern.is_name_char c = true ->
  Ascii.eqb c "*"%char = false /\ Ascii.eqb c "?"%char = false.
Proof.
  intros H. split.
  - destruct (Ascii.eqb_spec c "*"%char) as [->|]; [discriminate H | reflexivity].
  - destruct (Ascii.eqb_spec c "?"%char) as [->|]; [discriminate H | reflexivity].
Qed.

(** A segment without wildcards matches itself only. *)
Lemma wild_literal (p s : string) :
  Pattern.all_name_chars p = true -> Pattern.wild p s = String.eqb p s.
Proof.
  revert s. induction p as [|c p IH]; intros s.
  - intros _. destruct s; reflexivity.
  - cbn [Pattern.all_name_chars]. intros H. apply andb_true_iff in H as [Hc Hp].
    destruct (name_char_not_star c Hc) as [Hstar Hq].
    cbn [Pattern.wild]. rewrite Hstar.
    destruct s as [|d s]; [reflexivity|].
    rewrite Hq, IH by exact Hp. cbn [orb String.eqb].
    destruct (Ascii.eqb c d); reflexivity.
Qed.

(** A segment without wildcards matches itself only, under the dot rule as
    well. *)
Lemma segmentMatch_literal (p s : string) :
  Pattern.all_name_chars p = true -> Pattern.segmentMatch p s = String.eqb p s.
Proof.
  intros Hall. unfold Pattern.segmentMatch.
  destruct (Pattern.dotSegment s && negb (Pattern.dotSegment p)) eqn:Hd.
  - apply andb_true_iff in Hd as [Hs Hp]. apply negb_true_iff in Hp.
    symmetry. apply String.eqb_neq. intros ->. congruence.
  - apply wild_literal, Hall.
Qed.

Lemma glob_star (pat path : list string) :
  Pattern.glob ("**" :: pat) path
  = Pattern.glob pat path
    || match path with
       | [] => false
       | s :: l => negb (Pattern.dotSegment s) && Pattern.glob ("**" :: pat) l
       end.
Proof. destruct path; reflexivity. Qed.

(** [**] may swallow leading segments that do not start with a dot. *)
Lemma glob_star_skip (pat pre path : list string) :
  plainSegments pre ->
  Pattern.glob pat path = true -> Pattern.glob ("**" :: pat) (pre ++ path) = true.
Proof.
  intros Hpre H. induction Hpre as [|s pre Hs _ IH].
  - rewrite glob_star. cbn [app]. rewrite H. reflexivity.
  - rewrite glob_star. cbn [app]. rewrite IH, Hs. apply orb_true_r.
Qed.

Lemma glob_star_any (path : list string) :
  plainSegments path -> Pattern.glob ["**"] path = true.
Proof.
  intros H. rewrite <- (app_nil_r path). apply glob_star_skip; [exact H | reflexivity].
Qed.

(** [**] stops at a segment that starts with a dot. *)
Lemma glob_star_dot (pat : list string) (s : string) (path : list string) :
  Pattern.dotSegment s = true ->
  Pattern.glob ("**" :: pat) (s :: path) = Pattern.glob pat (s :: path).
Proof. intros H. rewrite glob_star, H. apply orb_false_r. Qed.

Lemma glob_literal_cons (seg : string) (pat : list string) (s : string)
    (path : list string) :
  Pattern.all_name_chars seg = true -> seg <> "" ->
  Pattern.glob (seg :: pat) (s :: path) = String.eqb seg s && Pattern.glob pat path.
Proof.
  intros Hall Hne. cbn [Pattern.glob].
  destruct (String.eqb_spec seg "**") as [->|_]; [discriminate Hall|].
  rewrite segmentMatch_literal by exact Hall. reflexivity.
Qed.

Lemma glob_literal_nil (seg : string) (pat : list string) :
  Pattern.all_name_chars seg = true ->
  Pattern.glob (seg :: pat) [] = false.
Proof.
  intros Hall. cbn [Pattern.glob].
  destruct (String.eqb_spec seg "**") as [->|_]; [discriminate Hall | reflexivity].
Qed.

(** A pattern [**/<name>...] only matches paths that have the segment
    [<name>]. *)
Lemma glob_star_literal_In (name : string) (pat path : list string) :
  Pattern.all_name_chars name = true -> name <> "" ->
  Pattern.glob ("**" :: name :: pat) path = true -> In name path.
Proof.
  intros Hall Hne. induction path as [|s path IH]; rewrite glob_star.
  - rewrite glob_literal_nil by exact Hall. discriminate.
  - rewrite glob_literal_cons by assumption. intros H.
    apply orb_true_iff in H as [H|H].
    + apply andb_true_iff in H as [H _]. apply String.eqb_eq in H. left. congruence.
    + apply andb_true_iff in H as [_ H]. right. apply IH, H.
Qed.

(** Collapsing the slashes of a pattern leaves a part without slashes as
    it is. *)
Lemma collapse_slashes_app (a t : string) :
  Str.mem Str.slash a = false ->
  Pattern.collapse_slashes (a +:+ t) = a +:+ Pattern.collapse_slashes t.
Proof.
  induction a as [|c a IH]; intros Hm; [reflexivity|].
  cbn [Str.mem] in Hm. apply orb_false_iff in Hm as [Hc Ha].
  rewrite !append_cons. cbn [Pattern.collapse_slashes].
  rewrite Ascii.eqb_sym, Hc. cbn [andb]. rewrite IH by exact Ha. reflexivity.
Qed.

Lemma collapse_slashes_single (a t : string) :
  Str.mem Str.slash a = false -> a <> "" ->
  Pattern.collapse_slashes (String Str.slash (a +:+ t))
  = String Str.slash (a +:+ Pattern.collapse_slashes t).
Proof.
  intros Hm Hne. cbn [Pattern.collapse_slashes].
  destruct a as [|c a]; [congruence|].
  rewrite append_cons. cbn [Str.starts_with_char].
  cbn [Str.mem] in Hm. apply orb_false_iff in Hm as [Hc Ha].
  rewrite Hc, andb_false_r.
  rewrite <- append_cons, collapse_slashes_app; [reflexivity|].
  cbn [Str.mem]. rewrite Hc, Ha. reflexivity.
Qed.

Section GlobName.

Variable name : string.
Hypothesis name_chars : Pattern.all_name_chars name = true.
Hypothesis name_not_empty : name <> "".

Lemma split_name : Str.split Str.slash name = [name].
Proof. apply split_absent, all_name_chars_no_slash, name_chars. Qed.

Lemma split_pattern : Str.split Str.slash ("**/" +:+ name) = ["**"; name].
Proof.
  change ("**/" +:+ name) with ("**" +:+ String Str.slash name).
  rewrite split_app, split_name. reflexivity.
Qed.

Lemma split_pattern_expanded :
  Str.split Str.slash (("**/" +:+ name) +:+ "/**") = ["**"; name; "**"].
Proof.
  rewrite append_assoc.
  change ("**/" +:+ name +:+ "/**")
    with ("**" +:+ String Str.slash (name +:+ String Str.slash "**")).
  rewrite !split_app, split_name. reflexivity.
Qed.

Lemma name_no_slash : Str.mem Str.slash name = false.
Proof. apply all_name_chars_no_slash, name_chars. Qed.

Lemma collapse_pattern :
  Pattern.collapse_slashes ("**/" +:+ name) = "**/" +:+ name.
Proof.
  assert (H : "**/" +:+ name = "**" +:+ String Str.slash (name +:+ ""))
    by (rewrite append_nil_r; reflexivity).
  rewrite H, collapse_slashes_app by reflexivity.
  rewrite collapse_slashes_single by (exact name_no_slash || exact name_not_empty).
  reflexivity.
Qed.

Lemma collapse_pattern_expanded :
  Pattern.collapse_slashes (("**/" +:+ name) +:+ "/**") = ("**/" +:+ name) +:+ "/**".
Proof.
  rewrite append_assoc.
  change ("**/" +:+ name +:+ "/**") with ("**" +:+ String Str.slash (name +:+ "/**")).
  rewrite collapse_slashes_app by reflexivity.
  rewrite collapse_slashes_single by (exact name_no_slash || exact name_not_empty).
  reflexivity.
Qed.

(** [**/<name>] matches every path whose last segment is [<name>], when no
    segment before it starts with a dot. *)
Lemma isMatch_last (pre : list string) (path : string) :
  plainAround name path pre [] ->
  Pattern.isMatch path ("**/" +:+ name) = true.
Proof.
  intros (Hp & Hpre & _). unfold Pattern.isMatch.
  rewrite collapse_pattern, split_pattern, Hp.
  apply glob_star_skip; [exact Hpre|]. rewrite glob_literal_cons by assumption.
  rewrite String.eqb_refl. reflexivity.
Qed.

(** [**/<name>/**] matches every path that has the segment [<name>], when
    no other segment of the path starts with a dot. *)
Lemma isMatch_below (pre rest : list string) (path : string) :
  plainAround name path pre rest ->
  Pattern.isMatch path (("**/" +:+ name) +:+ "/**") = true.
Proof.
  intros (Hp & Hpre & Hrest). unfold Pattern.isMatch.
  rewrite collapse_pattern_expanded, split_pattern_expanded, Hp.
  apply glob_star_skip; [exact Hpre|]. rewrite glob_literal_cons by assumption.
  rewrite String.eqb_refl, glob_star_any by exact Hrest. reflexivity.
Qed.

(** Neither pattern matches a path without the segment [<name>]. *)
Lemma isMatch_needs_segment (path : string) :
  ~ In name (Str.split Str.slash path) ->
  Pattern.micromatch path ["**/" +:+ name; ("**/" +:+ name) +:+ "/**"] = false.
Proof.
  intros Hn. unfold Pattern.micromatch. apply andb_false_iff. left.
  unfold Pattern.kept, Pattern.isMatch. cbn [existsb].
  change (Pattern.negated ("**/" +:+ name)) with (@None string).
  change (Pattern.negated (("**/" +:+ name) +:+ "/**")) with (@None string).
  cbn iota.
  rewrite collapse_pattern, collapse_pattern_expanded.
  rewrite split_pattern, split_pattern_expanded.
  destruct (Pattern.glob ["**"; name] _) eqn:H1.
  { exfalso. apply Hn. eapply glob_star_literal_In; eassumption. }
  destruct (Pattern.glob ["**"; name; "**"] _) eqn:H2.
  { exfalso. apply Hn. eapply glob_star_literal_In; eassumption. }
  reflexivity.
Qed.

End GlobName.

(** A plain pattern of the list that matches puts the path in the result,
    unless the glob of a negated pattern matches it too. *)
Lemma micromatch_In (path : string) (patterns : list string) (p : string) :
  In p patterns -> Pattern.negated p = None -> Pattern.isMatch path p = true ->
  Pattern.omitted path patterns = false ->
  Pattern.micromatch path patterns = true.
Proof.
  intros Hin Hneg Hm Hom. unfold Pattern.micromatch. rewrite Hom, andb_true_r.
  apply existsb_exists. exists p. split; [exact Hin|]. rewrite Hneg. exact Hm.
Qed.

(** A list without negated patterns takes nothing away. *)
Lemma omitted_plain (path : string) (patterns : list string) :
  (forall p, In p patterns -> Pattern.negated p = None) ->
  Pattern.omitted path patterns = false.
Proof.
  intros H. apply not_true_is_false. intros Hm.
  apply existsb_exists in Hm as (q & Hq & Hm). rewrite (H q Hq) in Hm.
  discriminate Hm.
Qed.

(** The patterns that the expansion adds are not negated ones. *)
Lemma omitted_expandExclude (path : string) (patterns : list string) :
  Pattern.omitted path (expandExclude patterns) = Pattern.omitted path patterns.
Proof.
  unfold Pattern.omitted, expandExclude. rewrite existsb_app.
  match goal with |- _ || ?b = _ => assert (Hb : b = false) end.
  { apply not_true_is_false. intros H. apply existsb_exists in H as (q & Hq & Hm).
    apply in_map_iff in Hq as (pattern & <- & Hq).
    apply filter_In in Hq as [_ Ht].
    unfold Pattern.reGlobBaseName_test in Ht.
    destruct (Str.strip_prefix "**/" pattern) as [r|] eqn:Hr; [|discriminate Ht].
    apply strip_prefix_spec in Hr. subst pattern.
    change (Pattern.negated (("**/" +:+ r) +:+ "/**")) with (@None string) in Hm.
    discriminate Hm. }
  rewrite Hb. apply orb_false_r.
Qed.

Lemma scannerFilter_excluded (stat : IEntry) (patterns : list string) :
  Pattern.micromatch (entry_path stat) patterns = true ->
  scannerFilter stat (Some patterns) = false.
Proof. intros H. unfold scannerFilter. rewrite H. reflexivity. Qed.

(** The shapes of the paths with a segment [name] and no segment that
    starts with a dot around it. *)
Lemma plainAround_shapes (name : string) :
  Str.mem Str.slash name = false ->
  plainAround name name [] []
  /\ (forall d, plainSegments (Str.split Str.slash d) ->
        plainAround name (d +:+ "/" +:+ name) (Str.split Str.slash d) [])
  /\ (forall r, plainSegments (Str.split Str.slash r) ->
        plainAround name (name +:+ "/" +:+ r) [] (Str.split Str.slash r))
  /\ (forall d r,
        plainSegments (Str.split Str.slash d) ->
        plainSegments (Str.split Str.slash r) ->
        plainAround name (d +:+ "/" +:+ name +:+ "/" +:+ r)
          (Str.split Str.slash d) (Str.split Str.slash r)).
Proof.
  intros Hm. unfold plainAround, plainSegments.
  pose proof (split_absent Str.slash name Hm) as Hs.
  split; [|split; [|split]].
  - split; [exact Hs|]. split; constructor.
  - intros d Hd. split; [|split; [exact Hd | constructor]].
    change (d +:+ "/" +:+ name) with (d +:+ String Str.slash name).
    rewrite split_app, Hs. reflexivity.
  - intros r Hr. split; [|split; [constructor | exact Hr]].
    change (name +:+ "/" +:+ r) with (name +:+ String Str.slash r).
    rewrite split_app, Hs. reflexivity.
  - intros d r Hd Hr. split; [|split; assumption].
    change (d +:+ "/" +:+ name +:+ "/" +:+ r)
      with (d +:+ String Str.slash (name +:+ String Str.slash r)).
    rewrite !split_app, Hs. reflexivity.
Qed.

(** ** The settings object and the filter in [doScanner] *)

Section Exclusion.

Variable extract : string -> string -> ISettings -> option ISymbols.
Variable w : World.

(** What [doScanner] does to its settings argument. *)
Lemma doScanner_settings (fuel : nat) (root : string) (settings : ISettings)
    (st : State) :
  scan_settings (doScanner extract w fuel root settings st)
  = set_scannerExclude (expandExclude <$> scannerExclude settings) settings.
Proof.
  unfold doScanner.
  destruct (runStream extract w _ _ _ None st) as [[l s] st1]. reflexivity.
Qed.

(** An entry that the filter rejects never reaches the file handler. *)
Lemma runStream_rejected (settings : ISettings) (excl : option (list string))
    (stat : IEntry) (items : list StreamItem)
    (settled : option (Result (list ISymbols))) (st : State) :
  scannerFilter stat excl = false ->
  runStream extract w settings excl (Found stat :: items) settled st
  = runStream extract w settings excl items settled st.
Proof. intros H. cbn [runStream]. rewrite H. reflexivity. Qed.

(** C7, as the code has it: a pattern [**/<name>] of the exclusion list
    whose name is a non-empty run of letters, digits, underscores, dots and
    hyphens is kept, and [**/<name>/**] is added to the list the filter
    works with.  The filter then rejects [<name>], every path that ends with
    the entry [<name>] and every path below a directory [<name>], at any
    depth, provided that no other segment of the path starts with a dot
    (the matcher is called without options, so [**] does not cross such a
    segment) and that the list has no negated pattern (a pattern that
    starts with [!] takes its matches away from the result); such an entry
    never reaches the file handler.  The two patterns match no path
    without a segment [<name>]. *)
Theorem C7_exclusion_expansion (name : string) (pats : list string)
    (settings : ISettings) (fuel : nat) (root : string) (st : State) :
  scannerExclude settings = Some pats ->
  In ("**/" +:+ name) pats ->
  name <> "" -> Pattern.all_name_chars name = true ->
  exists eff,
    scannerExclude (scan_settings (doScanner extract w fuel root settings st)) = Some eff
    /\ In ("**/" +:+ name) eff
    /\ In (("**/" +:+ name) +:+ "/**") eff
    /\ (forall stat pre rest,
          (forall p, In p pats -> Pattern.negated p = None) ->
          plainAround name (entry_path stat) pre rest ->
          scannerFilter stat (Some eff) = false
          /\ forall items settled st',
               runStream extract w
                 (scan_settings (doScanner extract w fuel root settings st))
                 (Some eff) (Found stat :: items) settled st'
               = runStream extract w
                   (scan_settings (doScanner extract w fuel root settings st))
                   (Some eff) items settled st')
    /\ (plainAround name name [] []
        /\ (forall d, plainSegments (Str.split Str.slash d) ->
              plainAround name (d +:+ "/" +:+ name) (Str.split Str.slash d) [])
        /\ (forall r, plainSegments (Str.split Str.slash r) ->
              plainAround name (name +:+ "/" +:+ r) [] (Str.split Str.slash r))
        /\ (forall d r,
              plainSegments (Str.split Str.slash d) ->
              plainSegments (Str.split Str.slash r) ->
              plainAround name (d +:+ "/" +:+ name +:+ "/" +:+ r)
                (Str.split Str.slash d) (Str.split Str.slash r)))
    /\ (forall path, ~ hasSegment name path ->
          Pattern.micromatch path ["**/" +:+ name; ("**/" +:+ name) +:+ "/**"] = false).
Proof.
  intros Hex Hin Hne Hall.
  pose proof (reGlobBaseName_name name Hne Hall) as Htest.
  exists (expandExclude pats).
  assert (Hfilter : forall stat pre rest,
            (forall p, In p pats -> Pattern.negated p = None) ->
            plainAround name (entry_path stat) pre rest ->
            scannerFilter stat (Some (expandExclude pats)) = false).
  { intros stat pre rest Hplain Hseg. apply scannerFilter_excluded.
    pose proof (omitted_plain (entry_path stat) pats Hplain) as Hom.
    destruct rest as [|s rest].
    - apply micromatch_In with (p := "**/" +:+ name).
      + apply expandExclude_keeps, Hin.
      + reflexivity.
      + eapply isMatch_last; eassumption.
      + rewrite omitted_expandExclude. exact Hom.
    - apply micromatch_In with (p := ("**/" +:+ name) +:+ "/**").
      + apply expandExclude_adds; assumption.
      + reflexivity.
      + eapply isMatch_below; eassumption.
      + rewrite omitted_expandExclude. exact Hom. }
  split; [rewrite doScanner_settings, Hex; reflexivity|].
  split; [apply expandExclude_keeps, Hin|].
  split; [apply expandExclude_adds; assumption|].
  split; [|split].
  - intros stat pre rest Hplain Hseg. split; [eapply Hfilter; eassumption|].
    intros. apply runStream_rejected. eapply Hfilter; eassumption.
  - apply plainAround_shapes, all_name_chars_no_slash, Hall.
  - intros path Hn. apply isMatch_needs_segment; assumption.
Qed.

(** C10: [doScanner] changes the exclusion list of the settings object it
    is given: the list the caller sees afterwards is the old one followed
    by [<pattern>/**] for each of its patterns of the shape [**/<name>],
    the very list the filter works with; and since the added patterns do
    not have that shape, every further call appends the same patterns once
    more. *)
Theorem C10_settings_mutated (pats : list string) (settings : ISettings)
    (fuel : nat) (root : string) (st : State) :
  scannerExclude settings = Some pats ->
  let added := map (fun pattern => pattern +:+ "/**")
                 (List.filter Pattern.reGlobBaseName_test pats) in
  scannerExclude (scan_settings (doScanner extract w fuel root settings st))
  = Some (pats ++ added)%list
  /\ (forall calls : list (nat * string * State),
        scannerExclude (doScannerCalls extract w calls settings)
        = Some (pats ++ concat (repeat added (length calls)))%list)
  /\ (forall calls : list (nat * string * State),
        exists l,
          scannerExclude (doScannerCalls extract w calls settings) = Some l
          /\ length l
             = (length pats
                + length calls
                  * length (List.filter Pattern.reGlobBaseName_test pats))%nat).
Proof.
  intros Hex added.
  assert (Hcalls : forall calls s l,
            scannerExclude s = Some l ->
            List.filter Pattern.reGlobBaseName_test l
            = List.filter Pattern.reGlobBaseName_test pats ->
            scannerExclude (doScannerCalls extract w calls s)
            = Some (l ++ concat (repeat added (length calls)))%list).
  { induction calls as [|[[f r] s0] calls IH]; intros s l Hs Hf.
    - cbn. rewrite app_nil_r. exact Hs.
    - cbn [doScannerCalls length repeat concat].
      rewrite (IH _ (expandExclude l)).
      + unfold expandExclude. rewrite Hf, <- app_assoc. reflexivity.
      + rewrite doScanner_settings, Hs. reflexivity.
      + rewrite filter_expandExclude. exact Hf. }
  split; [rewrite doScanner_settings, Hex; reflexivity|].
  split; [intros calls; apply Hcalls; [exact Hex | reflexivity]|].
  intros calls. eexists. split; [apply Hcalls; [exact Hex | reflexivity]|].
  rewrite length_app. f_equal.
  induction calls as [|c calls IH]; [reflexivity|].
  cbn [length repeat concat]. rewrite length_app, IH.
  unfold added. rewrite length_map. reflexivity.
Qed.

End Exclusion.

Lemma C7_exclusion_expansion_witness :
  exists eff,
    scannerExclude
      (scan_settings
         (doScanner Fixture.extract Fixture.w_partial 3 "/r"
            (Fixture.settings ["**/vendor"] 1 false) Fixture.empty)) = Some eff
    /\ In "**/vendor" eff
    /\ In "**/vendor/**" eff
    /\ scannerFilter (mkEntry "/r/x/vendor/y/z.scss" true 1) (Some eff) = false
    /\ scannerFilter (mkEntry "vendor" true 1) (Some eff) = false
    /\ Pattern.micromatch "/r/not-vendor/a.scss" ["**/vendor"; "**/vendor/**"] = false.
Proof.
  destruct (C7_exclusion_expansion Fixture.extract Fixture.w_partial "vendor"
              ["**/vendor"] (Fixture.settings ["**/vendor"] 1 false) 3 "/r"
              Fixture.empty)
    as (eff & Heff & Hin1 & Hin2 & Hrej & _ & Hkeep).
  - reflexivity.
  - left. reflexivity.
  - discriminate.
  - reflexivity.
  - exists eff. split; [exact Heff|]. split; [exact Hin1|]. split; [exact Hin2|].
    split; [|split].
    + apply (Hrej (mkEntry "/r/x/vendor/y/z.scss" true 1) [""; "r"; "x"] ["y"; "z.scss"]).
      * intros p [<-|[]]. reflexivity.
      * split; [reflexivity|]. split; repeat constructor.
    + apply (Hrej (mkEntry "vendor" true 1) [] []).
      * intros p [<-|[]]. reflexivity.
      * split; [reflexivity|]. split; constructor.
    + apply Hkeep. unfold hasSegment. vm_compute.
      intros H. repeat (destruct H as [H|H]; [discriminate H|]). exact H.
Defined.

(** C7 as the specification states it fails in two ways.  A name with a
    character outside the class of the regular expression: [**/@types] has
    no other separator and no wildcard, but it is not expanded; the list
    stays as it was, and a file below a directory [@types] passes the
    filter.  And a path that goes through a directory whose name starts with
    a dot: [**/vendor] is expanded, but neither pattern matches
    [/r/.cache/vendor/c.scss], which lies below a directory [vendor] and
    passes the filter. *)
Lemma C7_counterexample :
  Pattern.reGlobBaseName_test "**/@types" = false
  /\ scannerExclude
       (scan_settings
          (doScanner Fixture.extract Fixture.w_partial 3 "/r"
             (Fixture.settings ["**/@types"] 1 false) Fixture.empty))
     = Some ["**/@types"]
  /\ scannerFilter (mkEntry "/r/@types/a.scss" true 1) (Some ["**/@types"]) = true
  /\ scannerFilter (mkEntry "/r/@types" false 1) (Some ["**/@types"]) = false
  /\ scannerExclude
       (scan_settings
          (doScanner Fixture.extract Fixture.w_partial 3 "/r"
             (Fixture.settings ["**/vendor"] 1 false) Fixture.empty))
     = Some ["**/vendor"; "**/vendor/**"]
  /\ hasSegment "vendor" "/r/.cache/vendor/c.scss"
  /\ scannerFilter (mkEntry "/r/.cache/vendor/c.scss" true 1)
       (Some ["**/vendor"; "**/vendor/**"]) = true.
Proof.
  repeat split; try reflexivity.
  unfold hasSegment. vm_compute. tauto.
Qed.

Lemma C10_settings_mutated_witness :
  scannerExclude
    (scan_settings
       (doScanner Fixture.extract Fixture.w_partial 3 "/r"
          (Fixture.settings ["**/vendor"; "*.tmp"] 1 false) Fixture.empty))
  = Some ["**/vendor"; "*.tmp"; "**/vendor/**"]
  /\ scannerExclude
       (doScannerCalls Fixture.extract Fixture.w_partial
          [(3%nat, "/r", Fixture.empty); (3%nat, "/r", Fixture.empty)]
          (Fixture.settings ["**/vendor"; "*.tmp"] 1 false))
     = Some ["**/vendor"; "*.tmp"; "**/vendor/**"; "**/vendor/**"].
Proof.
  destruct (C10_settings_mutated Fixture.extract Fixture.w_partial
              ["**/vendor"; "*.tmp"] (Fixture.settings ["**/vendor"; "*.tmp"] 1 false)
              3 "/r" Fixture.empty eq_refl) as (H1 & H2 & _).
  split; [exact H1|].
  exact (H2 [(3%nat, "/r", Fixture.empty); (3%nat, "/r", Fixture.empty)]).
Defined.

(** ** Import resolution *)

Section Resolver.

Variable extract : string -> string -> ISettings -> option ISymbols.
Variable w : World.

Lemma isKnown_spec (symbolsList : list ISymbols) (p : string) :
  isKnown symbolsList p = true <-> exists s, In s symbolsList /\ document s = p.
Proof.
  unfold isKnown. rewrite existsb_exists.
  split; intros (s & Hin & Hs); exists s; split; try assumption;
    apply String.eqb_eq; assumption.
Qed.

(** Where a candidate comes from. *)
Lemma importCandidates_In (symbolsList : list ISymbols) (x : IImport) (p : string) :
  In p (importCandidates symbolsList x) ->
  imp_dynamic x = false /\ imp_css x = false
  /\ isKnown symbolsList (imp_filepath x) = false
  /\ (p = imp_filepath x \/ p = partialPath (imp_filepath x)).
Proof.
  unfold importCandidates.
  destruct (imp_dynamic x), (imp_css x); cbn; try contradiction.
  destruct (isKnown symbolsList (imp_filepath x)); cbn; [contradiction|].
  intros [<-|[<-|[]]]; auto.
Qed.

Lemma importedFiles_In (symbolsList lst : list ISymbols) (p : string) :
  In p (importedFiles symbolsList lst) <->
  exists item x, In item lst /\ In x (imports item)
                 /\ In p (importCandidates symbolsList x).
Proof.
  unfold importedFiles. rewrite in_flat_map. split.
  - intros (item & Hitem & Hp). apply in_flat_map in Hp as (x & Hx & Hp). eauto.
  - intros (item & x & Hitem & Hx & Hp). exists item. split; [exact Hitem|].
    apply in_flat_map. eauto.
Qed.

(** A record that is followed puts its target and the partial-file sibling
    in the candidates. *)
Lemma importedFiles_followed (symbolsList lst : list ISymbols) (item : ISymbols)
    (x : IImport) :
  In item lst -> In x (imports item) ->
  imp_dynamic x = false -> imp_css x = false ->
  isKnown symbolsList (imp_filepath x) = false ->
  In (imp_filepath x) (importedFiles symbolsList lst)
  /\ In (partialPath (imp_filepath x)) (importedFiles symbolsList lst).
Proof.
  intros Hitem Hx Hd Hc Hk.
  split; apply importedFiles_In; exists item, x; (split; [exact Hitem|]);
    (split; [exact Hx|]); unfold importCandidates; rewrite Hd, Hc, Hk; cbn; auto.
Qed.

(** A record whose target is the document of a table of [symbolsList] adds
    no candidate. *)
Lemma importCandidates_known (symbolsList : list ISymbols) (x : IImport)
    (s : ISymbols) :
  In s symbolsList -> document s = imp_filepath x ->
  importCandidates symbolsList x = [].
Proof.
  intros Hs Hdoc. unfold importCandidates.
  replace (isKnown symbolsList (imp_filepath x)) with true
    by (symmetry; apply isKnown_spec; eauto).
  destruct (imp_dynamic x || imp_css x); reflexivity.
Qed.

(** C9: a record with the dynamic or the css flag adds no candidate, in any
    wave and whatever the disk holds: every candidate of a wave is the
    target, or the partial-file sibling of the target, of a record of the
    frontier that has neither flag. *)
Theorem C9_dynamic_css_not_followed (symbolsList : list ISymbols)
    (settings : ISettings) (st : State) (k : nat) :
  (forall x, imp_dynamic x = true \/ imp_css x = true ->
             importCandidates symbolsList x = [])
  /\ (forall p,
        In p (importedFiles symbolsList
                (fst (frontier extract w symbolsList settings k st))) ->
        exists item x,
          In item (fst (frontier extract w symbolsList settings k st))
          /\ In x (imports item)
          /\ imp_dynamic x = false /\ imp_css x = false
          /\ (p = imp_filepath x \/ p = partialPath (imp_filepath x))).
Proof.
  split.
  - intros x [H|H]; unfold importCandidates; rewrite H;
      [reflexivity | rewrite orb_true_r; reflexivity].
  - intros p Hp. apply importedFiles_In in Hp as (item & x & Hitem & Hx & Hp).
    apply importCandidates_In in Hp as (Hd & Hc & _ & Hp).
    exists item, x. auto.
Qed.

(** C2, as the code has it: in every wave a record is skipped when its
    target is the document of one of the tables of [symbolsList], the list
    [scannerImportedFiles] was called with; every candidate of a wave is
    the target, or its partial-file sibling, of a record whose target is
    the document of none of them. *)
Theorem C2_project_documents_skipped (symbolsList : list ISymbols)
    (settings : ISettings) (st : State) (k : nat) (x : IImport) (s : ISymbols) :
  In s symbolsList -> document s = imp_filepath x ->
  importCandidates symbolsList x = []
  /\ (forall p,
        In p (importedFiles symbolsList
                (fst (frontier extract w symbolsList settings k st))) ->
        exists item y,
          In item (fst (frontier extract w symbolsList settings k st))
          /\ In y (imports item)
          /\ (p = imp_filepath y \/ p = partialPath (imp_filepath y))
          /\ forall s', In s' symbolsList -> document s' <> imp_filepath y).
Proof.
  intros Hs Hdoc. split.
  - eapply importCandidates_known; eassumption.
  - intros p Hp. apply importedFiles_In in Hp as (item & y & Hitem & Hy & Hp).
    apply importCandidates_In in Hp as (_ & _ & Hk & Hp).
    exists item, y. repeat (split; [assumption|]).
    intros s' Hs' Heq.
    assert (isKnown symbolsList (imp_filepath y) = true)
      by (apply isKnown_spec; eauto).
    congruence.
Qed.

(** *** Termination and the depth bound *)

(** More fuel does not change a result. *)
Lemma recurse_fuel (fuel fuel' : nat) (symbolsList : list ISymbols)
    (settings : ISettings) (nesting : Z) (accum lst : list ISymbols) (st : State)
    (r : list ISymbols * Z * State) :
  (fuel <= fuel')%nat ->
  recurse extract w fuel symbolsList settings nesting accum lst st = Some r ->
  recurse extract w fuel' symbolsList settings nesting accum lst st = Some r.
Proof.
  revert fuel' nesting accum lst st.
  induction fuel as [|fuel IH]; intros fuel' nesting accum lst st Hle;
    [discriminate|].
  destruct fuel' as [|fuel']; [lia|].
  cbn [recurse].
  destruct (_ || _); [auto|].
  destruct (importedFiles symbolsList lst); [auto|].
  destruct (probeAll extract w settings _ st) as [resultList st'].
  apply IH. lia.
Qed.

(** With a depth that is a natural number, [recurse] comes to an end
    within [depth - nesting + 1] calls, and the counter stays within the
    depth. *)
Lemma recurse_terminates (fuel : nat) (symbolsList : list ISymbols)
    (settings : ISettings) (nesting : Z) (accum lst : list ISymbols) (st : State) :
  0 <= nesting <= scanImportedFilesDepth settings ->
  (Z.to_nat (scanImportedFilesDepth settings - nesting) < fuel)%nat ->
  exists accum' nesting' st',
    recurse extract w fuel symbolsList settings nesting accum lst st
    = Some (accum', nesting', st')
    /\ nesting <= nesting' <= scanImportedFilesDepth settings.
Proof.
  revert nesting accum lst st.
  induction fuel as [|fuel IH]; intros nesting accum lst st Hn Hf; [lia|].
  cbn [recurse].
  destruct (Z.eqb_spec nesting (scanImportedFilesDepth settings)) as [He|He].
  { rewrite orb_true_r. eexists _, _, _. split; [reflexivity | lia]. }
  destruct lst as [|item lst]; cbn [orb].
  { eexists _, _, _. split; [reflexivity | lia]. }
  destruct (importedFiles symbolsList (item :: lst)) as [|f files].
  { eexists _, _, _. split; [reflexivity | lia]. }
  destruct (probeAll extract w settings (f :: files) st) as [resultList st'].
  destruct (IH (nesting + 1) (accum ++ resultList)%list resultList st')
    as (a & n & s & Hr & Hb); [lia | lia |].
  exists a, n, s. split; [exact Hr | lia].
Qed.

(** What [recurse] returns when it is started on the frontier of wave [k]:
    the tables of the waves up to some wave [m]. *)
Lemma recurse_waves (fuel : nat) (symbolsList : list ISymbols)
    (settings : ISettings) (st0 : State) (k : nat) (lst : list ISymbols)
    (st : State) (accum' : list ISymbols) (nesting' : Z) (st' : State) :
  frontier extract w symbolsList settings k st0 = (lst, st) ->
  recurse extract w fuel symbolsList settings (Z.of_nat k)
    (waves extract w symbolsList settings k st0) lst st
  = Some (accum', nesting', st') ->
  exists m : nat,
    (k <= m)%nat /\ nesting' = Z.of_nat m
    /\ accum' = waves extract w symbolsList settings m st0
    /\ st' = snd (frontier extract w symbolsList settings m st0)
    /\ (Z.of_nat k <= scanImportedFilesDepth settings ->
        Z.of_nat m <= scanImportedFilesDepth settings).
Proof.
  revert k lst st. induction fuel as [|fuel IH]; intros k lst st Hfr;
    [discriminate|].
  assert (Hstop : exists m : nat,
            (k <= m)%nat /\ Z.of_nat k = Z.of_nat m
            /\ waves extract w symbolsList settings k st0
               = waves extract w symbolsList settings m st0
            /\ st = snd (frontier extract w symbolsList settings m st0)
            /\ (Z.of_nat k <= scanImportedFilesDepth settings ->
                Z.of_nat m <= scanImportedFilesDepth settings)).
  { exists k. rewrite Hfr. auto. }
  cbn [recurse].
  destruct (Z.eqb_spec (Z.of_nat k) (scanImportedFilesDepth settings)) as [He|He].
  { rewrite orb_true_r. intros [= <- <- <-]. exact Hstop. }
  rewrite orb_false_r.
  destruct lst as [|item lst].
  { intros [= <- <- <-]. exact Hstop. }
  destruct (importedFiles symbolsList (item :: lst)) as [|f files] eqn:Hfiles.
  { intros [= <- <- <-]. exact Hstop. }
  destruct (probeAll extract w settings (f :: files) st) as [resultList st1] eqn:Hp.
  assert (Hnext : frontier extract w symbolsList settings (S k) st0
                  = (resultList, st1)).
  { cbn [frontier]. rewrite Hfr. unfold wave. rewrite Hfiles. exact Hp. }
  replace (Z.of_nat k + 1) with (Z.of_nat (S k)) by lia.
  replace (waves extract w symbolsList settings k st0 ++ resultList)%list
    with (waves extract w symbolsList settings (S k) st0)
    by (cbn [waves]; rewrite Hnext; reflexivity).
  intros Hr. apply (IH (S k) resultList st1 Hnext) in Hr
    as (m & Hm & Hn & Ha & Hs & Hb).
  exists m. repeat split; try assumption; lia.
Qed.

(** A table of the waves [1] to [m] belongs to one of their frontiers. *)
Lemma waves_In (symbolsList : list ISymbols) (settings : ISettings) (st : State)
    (m : nat) (t : ISymbols) :
  In t (waves extract w symbolsList settings m st) <->
  exists i, (1 <= i <= m)%nat
            /\ In t (fst (frontier extract w symbolsList settings i st)).
Proof.
  induction m as [|m IH].
  - cbn. split; [contradiction | intros (i & Hi & _); lia].
  - cbn [waves]. rewrite in_app_iff, IH. split.
    + intros [(i & Hi & Ht)|Ht]; [exists i | exists (S m)]; split; auto; lia.
    + intros (i & Hi & Ht).
      destruct (Nat.eq_dec i (S m)) as [->|Hne]; [right; exact Ht|].
      left. exists i. split; [lia | exact Ht].
Qed.

End Resolver.

Section Termination.

Variable extract : string -> string -> ISettings -> option ISymbols.
Variable w : World.

Lemma settle_Some {A : Type} (now : option (Result A)) (r : Result A) :
  settle now r <> None.
Proof. destruct now; discriminate. Qed.

(** [doScanner] settles as soon as its import resolution comes to an end. *)
Lemma doScanner_settles (fuel : nat) (root : string) (settings : ISettings)
    (st : State) :
  (forall symbolsList st1,
     scannerImportedFiles extract w fuel symbolsList
       (set_scannerExclude (expandExclude <$> scannerExclude settings) settings) st1
     <> None) ->
  scan_promise (doScanner extract w fuel root settings st) <> None.
Proof.
  intros Hres. unfold doScanner.
  destruct (runStream extract w _ _ _ None st) as [[l settled] st1].
  cbn [scan_promise].
  destruct (promiseAll l) as [projectSymbols|err].
  - destruct (scanImportedFiles _).
    + specialize (Hres projectSymbols st1).
      destruct (scannerImportedFiles extract w fuel projectSymbols _ st1)
        as [[[imported n] st2]|]; [|contradiction].
      destruct (settle settled _) eqn:Hs; [discriminate|].
      exfalso. exact (settle_Some _ _ Hs).
    + destruct (settle settled _) eqn:Hs; [discriminate|].
      exfalso. exact (settle_Some _ _ Hs).
  - destruct (settle _ (Resolved _)) eqn:Hs; [discriminate|].
    exfalso. exact (settle_Some _ _ Hs).
Qed.

(** C5, as the code has it: with a depth that is a natural number, import
    resolution comes to an end on every input, within [depth + 1] calls of
    [recurse] and with the wave counter within the depth, and [doScanner]
    settles.  What is excluded is an import of a file that is among the
    tables the resolution was started with; the depth, not an exclusion,
    ends a cycle of files that are found through imports. *)
Theorem C5_resolution_terminates (symbolsList : list ISymbols)
    (settings : ISettings) (st : State) (fuel : nat) :
  0 <= scanImportedFilesDepth settings ->
  (Z.to_nat (scanImportedFilesDepth settings) < fuel)%nat ->
  (exists accum nesting st',
     scannerImportedFiles extract w fuel symbolsList settings st
     = Some (accum, nesting, st')
     /\ 0 <= nesting <= scanImportedFilesDepth settings)
  /\ (forall x s, In s symbolsList -> document s = imp_filepath x ->
                  importCandidates symbolsList x = [])
  /\ (forall root st0,
        scan_promise (doScanner extract w fuel root settings st0) <> None).
Proof.
  intros HD Hfuel. split; [|split].
  - apply recurse_terminates; [lia|].
    rewrite Z.sub_0_r. exact Hfuel.
  - intros x s Hs Hdoc. eapply importCandidates_known; eassumption.
  - intros root st0. apply doScanner_settles. intros sl st1 Hnone.
    destruct (recurse_terminates extract w fuel sl
                (set_scannerExclude (expandExclude <$> scannerExclude settings)
                   settings) 0 [] sl st1) as (a & n & s & Hr & _);
      [cbn; lia | cbn; rewrite Z.sub_0_r; exact Hfuel |].
    unfold scannerImportedFiles in Hnone. congruence.
Qed.

(** C6: with a depth that is a natural number, import resolution ends
    normally after some number [m] of waves that does not exceed the
    depth, and what it returns are the tables of the waves [1] to [m]:
    every table of the result belongs to the frontier of one of the first
    [depth] waves, and a table that belongs to none of them is absent. *)
Theorem C6_depth_bound (symbolsList : list ISymbols) (settings : ISettings)
    (st : State) (fuel : nat) :
  0 <= scanImportedFilesDepth settings ->
  (Z.to_nat (scanImportedFilesDepth settings) < fuel)%nat ->
  exists (m : nat) (st' : State),
    Z.of_nat m <= scanImportedFilesDepth settings
    /\ scannerImportedFiles extract w fuel symbolsList settings st
       = Some (waves extract w symbolsList settings m st, Z.of_nat m, st')
    /\ (forall t, In t (waves extract w symbolsList settings m st) ->
          exists i, (1 <= i <= Z.to_nat (scanImportedFilesDepth settings))%nat
                    /\ In t (fst (frontier extract w symbolsList settings i st)))
    /\ (forall t,
          (forall i, (1 <= i <= Z.to_nat (scanImportedFilesDepth settings))%nat ->
                     ~ In t (fst (frontier extract w symbolsList settings i st))) ->
          ~ In t (waves extract w symbolsList settings m st)).
Proof.
  intros HD Hfuel.
  destruct (recurse_terminates extract w fuel symbolsList settings 0 []
              symbolsList st) as (a & n & s & Hr & _);
    [lia | rewrite Z.sub_0_r; exact Hfuel |].
  pose proof Hr as Hr'.
  apply (recurse_waves extract w fuel symbolsList settings st 0 symbolsList st)
    in Hr' as (m & _ & -> & -> & -> & Hb); [|reflexivity].
  specialize (Hb HD).
  assert (Hin : forall t, In t (waves extract w symbolsList settings m st) ->
            exists i, (1 <= i <= Z.to_nat (scanImportedFilesDepth settings))%nat
                      /\ In t (fst (frontier extract w symbolsList settings i st))).
  { intros t Ht. apply waves_In in Ht as (i & Hi & Ht).
    exists i. split; [lia | exact Ht]. }
  exists m, (snd (frontier extract w symbolsList settings m st)).
  split; [exact Hb|]. split; [exact Hr|]. split; [exact Hin|].
  intros t Hnone Ht. destruct (Hin t Ht) as (i & Hi & Hti).
  exact (Hnone i Hi Hti).
Qed.

End Termination.

(** ** The resolver on the fixtures *)

Lemma C9_dynamic_css_not_followed_witness :
  importCandidates Fixture.project_self (mkImport "/r/lib/x.scss" true false) = []
  /\ importCandidates Fixture.project_self (mkImport "/r/lib/x.css" false true) = [].
Proof.
  destruct (C9_dynamic_css_not_followed Fixture.extract Fixture.w_self
              Fixture.project_self (Fixture.settings ["**/lib"] 2 false)
              Fixture.empty 0) as [H _].
  split; apply H; cbn; auto.
Defined.

Lemma C2_project_documents_skipped_witness :
  importCandidates Fixture.project_mutual (mkImport "/r/q.scss" false false) = [].
Proof.
  refine (proj1 (C2_project_documents_skipped Fixture.extract Fixture.w_mutual
                   Fixture.project_mutual (Fixture.settings [] 2 false) Fixture.empty 0
                   (mkImport "/r/q.scss" false false)
                   (Fixture.table "/r/q.scss" 5 "/r/p.scss") _ _)).
  - right. left. reflexivity.
  - reflexivity.
Defined.

(** C2 as the specification states it fails.  [lib/x.scss] is found in the
    first wave, so its table is in the set of known tables as the first
    wave has extended it; the file imports itself, and in the second wave
    that import record is not skipped: the file is a candidate again and is
    stat-ed a second time. *)
Lemma C2_counterexample :
  (exists item x t,
     In item (fst (frontier Fixture.extract Fixture.w_self Fixture.project_self
                     (Fixture.settings ["**/lib"] 2 false) 1 Fixture.empty))
     /\ In x (imports item)
     /\ In t (Fixture.project_self
              ++ waves Fixture.extract Fixture.w_self Fixture.project_self
                   (Fixture.settings ["**/lib"] 2 false) 1 Fixture.empty)%list
     /\ document t = imp_filepath x
     /\ importCandidates Fixture.project_self x
        = [imp_filepath x; partialPath (imp_filepath x)]
     /\ In (imp_filepath x)
          (importedFiles Fixture.project_self
             (fst (frontier Fixture.extract Fixture.w_self Fixture.project_self
                     (Fixture.settings ["**/lib"] 2 false) 1 Fixture.empty))))
  /\ exists accum st',
       scannerImportedFiles Fixture.extract Fixture.w_self 3 Fixture.project_self
         (Fixture.settings ["**/lib"] 2 false) Fixture.empty
       = Some (accum, 2, st')
       /\ Fixture.documents accum = ["/r/lib/x.scss"; "/r/lib/x.scss"]
       /\ stat_count "/r/lib/x.scss" (trace st') = 2%nat
       /\ exists r st'',
            scan_promise (doScanner Fixture.extract Fixture.w_self 3 "/r"
                            (Fixture.settings ["**/lib"] 2 false) Fixture.empty)
            = Some (Resolved r, st'')
            /\ Fixture.documents r = ["/r/a.scss"; "/r/lib/x.scss"; "/r/lib/x.scss"]
            /\ stat_count "/r/lib/x.scss" (trace st'') = 2%nat.
Proof.
  split.
  - exists Fixture.table_self, (mkImport "/r/lib/x.scss" false false),
      Fixture.table_self.
    vm_compute. tauto.
  - eexists _, _. split; [vm_compute; reflexivity|].
    split; [reflexivity|]. split; [reflexivity|].
    eexists _, _. split; [vm_compute; reflexivity|]. split; reflexivity.
Qed.

Lemma C5_resolution_terminates_witness :
  (exists accum nesting st',
     scannerImportedFiles Fixture.extract Fixture.w_cycle 4 Fixture.project_self
       (Fixture.settings ["**/lib"] 3 false) Fixture.empty
     = Some (accum, nesting, st')
     /\ 0 <= nesting <= 3)
  /\ scan_promise (doScanner Fixture.extract Fixture.w_cycle 4 "/r"
                     (Fixture.settings ["**/lib"] 3 false) Fixture.empty) <> None.
Proof.
  destruct (C5_resolution_terminates Fixture.extract Fixture.w_cycle
              Fixture.project_self (Fixture.settings ["**/lib"] 3 false)
              Fixture.empty 4) as (H1 & _ & H3).
  - cbn. lia.
  - cbn. lia.
  - split; [exact H1 | apply H3].
Defined.

(** C5 as the specification states it fails on the exclusion.  Two files
    outside the project import each other: [lib/x.scss] is found by the
    first wave and [lib/y.scss] by the second; in the third wave the import
    of [lib/x.scss], a file found before, is not excluded: the file is
    stat-ed again and its table is returned twice.  The resolution ends
    because the counter has reached the depth. *)
Lemma C5_counterexample :
  In (Fixture.table "/r/lib/x.scss" 6 "/r/lib/y.scss")
    (waves Fixture.extract Fixture.w_cycle Fixture.project_self
       (Fixture.settings ["**/lib"] 3 false) 1 Fixture.empty)
  /\ In "/r/lib/x.scss"
       (importedFiles Fixture.project_self
          (fst (frontier Fixture.extract Fixture.w_cycle Fixture.project_self
                  (Fixture.settings ["**/lib"] 3 false) 2 Fixture.empty)))
  /\ exists accum st',
       scannerImportedFiles Fixture.extract Fixture.w_cycle 4 Fixture.project_self
         (Fixture.settings ["**/lib"] 3 false) Fixture.empty
       = Some (accum, 3, st')
       /\ Fixture.documents accum
          = ["/r/lib/x.scss"; "/r/lib/y.scss"; "/r/lib/x.scss"]
       /\ stat_count "/r/lib/x.scss" (trace st') = 2%nat
       /\ exists r st'',
            scan_promise (doScanner Fixture.extract Fixture.w_cycle 4 "/r"
                            (Fixture.settings ["**/lib"] 3 false) Fixture.empty)
            = Some (Resolved r, st'')
            /\ Fixture.documents r
               = ["/r/a.scss"; "/r/lib/x.scss"; "/r/lib/y.scss"; "/r/lib/x.scss"]
            /\ stat_count "/r/lib/x.scss" (trace st'') = 2%nat.
Proof.
  split; [vm_compute; tauto|]. split; [vm_compute; tauto|].
  eexists _, _. split; [vm_compute; reflexivity|].
  split; [reflexivity|]. split; [reflexivity|].
  eexists _, _. split; [vm_compute; reflexivity|]. split; reflexivity.
Qed.

(** Two project files that import each other: there is no candidate, and
    the resolution ends in its first call. *)
Example cycle_inside_project :
  importedFiles Fixture.project_mutual Fixture.project_mutual = []
  /\ forall fuel st D,
       scannerImportedFiles Fixture.extract Fixture.w_mutual (S fuel)
         Fixture.project_mutual (Fixture.settings [] D false) st
       = Some ([], 0, st).
Proof.
  split; [reflexivity|]. intros fuel st D.
  unfold scannerImportedFiles. cbn [recurse]. cbn [Fixture.project_mutual orb].
  destruct (0 =? _); reflexivity.
Qed.

Lemma C6_depth_bound_witness :
  exists (m : nat) (st' : State),
    Z.of_nat m <= 2
    /\ scannerImportedFiles Fixture.extract Fixture.w_chain 3 Fixture.project_chain
         (Fixture.settings ["**/lib"] 2 false) Fixture.empty
       = Some (waves Fixture.extract Fixture.w_chain Fixture.project_chain
                 (Fixture.settings ["**/lib"] 2 false) m Fixture.empty,
               Z.of_nat m, st').
Proof.
  destruct (C6_depth_bound Fixture.extract Fixture.w_chain Fixture.project_chain
              (Fixture.settings ["**/lib"] 2 false) Fixture.empty 3)
    as (m & st' & Hm & Hr & _).
  - cbn. lia.
  - cbn. lia.
  - exists m, st'. split; [exact Hm | exact Hr].
Defined.

(** A chain of seven imports and the depth [2]: the scan resolves with the
    project table and the tables of the first two files of the chain; the
    five other files are neither stat-ed nor read. *)
Example chain_depth_two :
  exists r st',
    scan_promise (doScanner Fixture.extract Fixture.w_chain 3 "/r"
                    (Fixture.settings ["**/lib"] 2 false) Fixture.empty)
    = Some (Resolved r, st')
    /\ Fixture.documents r = ["/r/a.scss"; "/r/lib/f1.scss"; "/r/lib/f2.scss"]
    /\ map (fun p => stat_count p (trace st'))
         ["/r/lib/f1.scss"; "/r/lib/f2.scss"; "/r/lib/f3.scss"; "/r/lib/f4.scss";
          "/r/lib/f5.scss"; "/r/lib/f6.scss"; "/r/lib/f7.scss"]
       = [1; 1; 0; 0; 0; 0; 0]%nat.
Proof. eexists _, _. split; [vm_compute; reflexivity | split; reflexivity]. Qed.

(** ** Failures in the project scan *)

Section ProjectScan.

Variable extract : string -> string -> ISettings -> option ISymbols.
Variable w : World.

(** C1: the project scan finds a file that reads and parses and a file
    that cannot be read, and [showErrors] is off.  [doScanner] resolves, but
    with the empty list: the rejection of one element rejects the whole
    [Promise.all], so the table of the readable file is not returned, and
    the imports are not resolved.  That table is in the cache all the
    same. *)
Theorem C1_unreadable_file_empties_result (settings : ISettings) (root : string)
    (st : State) (fuel : nat) (pa pb data : string) (ta tb : Z) (s : ISymbols) :
  showErrors settings = false ->
  readdirStreamStat w root (scannerDepth settings)
  = [Found (mkEntry pa true ta); Found (mkEntry pb true tb)] ->
  scannerFilter (mkEntry pa true ta) (expandExclude <$> scannerExclude settings) = true ->
  scannerFilter (mkEntry pb true tb) (expandExclude <$> scannerExclude settings) = true ->
  cache st !! pa = None -> cache st !! pb = None -> documentPath pa <> pb ->
  readFile w pa = Some data ->
  extract (documentPath pa) data
    (set_scannerExclude (expandExclude <$> scannerExclude settings) settings) = Some s ->
  readFile w pb = None ->
  exists t st',
    scan_promise (doScanner extract w fuel root settings st)
    = Some (Resolved [], st')
    /\ document t = documentPath pa
    /\ cache st' = <[documentPath pa := t]> (cache st)
    /\ read_in pb (trace st') = true.
Proof.
  intros Hshow Hstream Hfa Hfb Hca Hcb Hne Hra Hea Hrb.
  unfold doScanner. cbn [scannerDepth set_scannerExclude]. rewrite Hstream.
  cbn [runStream]. rewrite Hfa, Hfb. cbn [entry_isFile andb].
  rewrite onFile_miss by exact Hca. cbn [entry_path entry_ctime].
  rewrite (makeSymbols_resolved extract w (makeEntryFile pa ta) _ st data s Hra Hea).
  cbn [makeEntryFile file_filepath file_ctime].
  rewrite onFile_miss
    by (cbn [cache_set emit cache entry_path]; rewrite lookup_insert_ne; assumption).
  cbn [entry_path entry_ctime].
  rewrite (makeSymbols_unreadable extract w (makeEntryFile pb tb) _ _ Hrb).
  cbn [promiseAll scan_promise showErrors set_scannerExclude]. rewrite Hshow.
  cbn [settle option_map app].
  exists (set_ctime ta (set_document (documentPath pa) s)). eexists.
  split; [reflexivity|]. split; [reflexivity|]. split; [reflexivity|].
  cbn [makeEntryFile file_filepath emit cache_set trace].
  unfold read_in. rewrite !existsb_app. cbn [existsb].
  rewrite String.eqb_refl, !orb_true_r. reflexivity.
Qed.

End ProjectScan.

Lemma C1_unreadable_file_empties_result_witness :
  exists t st',
    scan_promise (doScanner Fixture.extract Fixture.w_unreadable 3 "/w"
                    (Fixture.settings [] 1 false) Fixture.empty)
    = Some (Resolved [], st')
    /\ document t = "/w/a.scss"
    /\ cache st' = <["/w/a.scss" := t]> (cache Fixture.empty)
    /\ read_in "/w/b.scss" (trace st') = true.
Proof.
  apply (C1_unreadable_file_empties_result Fixture.extract Fixture.w_unreadable
           (Fixture.settings [] 1 false) "/w" Fixture.empty 3
           "/w/a.scss" "/w/b.scss" "$x: 1;" 10 10
           (mkSymbols "/w/a.scss" [] [] [] [] None)).
  - reflexivity.
  - reflexivity.
  - reflexivity.
  - reflexivity.
  - reflexivity.
  - reflexivity.
  - discriminate.
  - vm_compute. reflexivity.
  - vm_compute. reflexivity.
  - vm_compute. reflexivity.
Defined.

(** With [a.scss] readable and [b.scss] unreadable the scan resolves with no
    table at all: the table of [a.scss] is not in the result. *)
Example unreadable_file_result :
  scan_result (doScanner Fixture.extract Fixture.w_unreadable 3 "/w"
                 (Fixture.settings [] 1 false) Fixture.empty)
  = Some (Resolved [])
  /\ ~ (exists r t,
          scan_result (doScanner Fixture.extract Fixture.w_unreadable 3 "/w"
                         (Fixture.settings [] 1 false) Fixture.empty)
          = Some (Resolved r)
          /\ In t r /\ document t = "/w/a.scss").
Proof.
  split; [vm_compute; reflexivity|].
  intros (r & t & Hr & Hin & _).
  vm_compute in Hr. injection Hr as <-. exact Hin.
Qed.

(** ** Freshness *)

Section Freshness.

Variable extract : string -> string -> ISettings -> option ISymbols.
Variable w : World.

(** The test of the file handler and of the resolver succeeds exactly on a
    cached table that carries a time not older than the file's. *)
Lemma fresh_Some (cached : option ISymbols) (entry : IFile) (c : ISymbols) :
  fresh cached entry = Some c <->
  cached = Some c /\ exists t, ctime c = Some t /\ file_ctime entry <= t.
Proof.
  unfold fresh. destruct cached as [c'|]; [|split; [discriminate | intros [[=] _]]].
  destruct (ctime c') as [t|] eqn:Ht.
  - destruct (Z.leb_spec (file_ctime entry) t).
    + split; [intros [= <-]; eauto|]. intros [[= <-] _]. reflexivity.
    + split; [discriminate|]. intros [[= <-] (t' & Ht' & Hle)]. 
      rewrite Ht in Ht'. injection Ht' as <-. lia.
  - split; [discriminate|]. intros [[= <-] (t' & Ht' & _)]. congruence.
Qed.

(** The project scan on a file whose path is a key of the cache, with a
    table that is not older than the file: the table is taken as it is,
    and neither the file system nor the parser is called. *)
Lemma onFile_hit (settings : ISettings) (stat : IEntry) (st : State)
    (c : ISymbols) (t : Z) :
  cache st !! entry_path stat = Some c -> ctime c = Some t ->
  entry_ctime stat <= t ->
  onFile extract w settings stat st = (Resolved c, st).
Proof.
  intros Hc Ht Hle. unfold onFile.
  replace (fresh _ _) with (Some c); [reflexivity|].
  symmetry. apply fresh_Some. split; [exact Hc|]. exists t. auto.
Qed.

(** X4: the same for a candidate of the import resolution.  When the cache
    holds, under the path of the candidate, a table that is at least as
    recent as the file, the probe returns that table as it is; the stat is
    the only call, and the cache is left alone. *)
Lemma probe_hit (settings : ISettings) (p : string) (st : State)
    (c : ISymbols) (t ct : Z) :
  statFile w p = Some ct ->
  cache st !! p = Some c -> ctime c = Some t -> ct <= t ->
  probe extract w settings p st = (Some c, emit (EvStat p) st).
Proof.
  intros Hs Hc Ht Hle. unfold probe. rewrite Hs.
  replace (fresh _ _) with (Some c); [reflexivity|].
  symmetry. apply fresh_Some. split; [exact Hc|]. exists t. auto.
Qed.

(** A partial file is never found in the cache under its own path by the
    extractor's doing: the extractor writes the key without the
    underscore. *)
Lemma makeSymbols_key (entry : IFile) (settings : ISettings) (st : State)
    (r : Result ISymbols) (st' : State) (k : string) :
  makeSymbolsForDocument extract w entry settings st = (r, st') ->
  k <> documentPath (file_filepath entry) ->
  cache st' !! k = cache st !! k.
Proof.
  unfold makeSymbolsForDocument.
  destruct (readFile w (file_filepath entry)) as [data|]; [|intros [= <- <-]; reflexivity].
  destruct (parseDocument extract _ data settings); intros [= <- <-] Hk;
    [|reflexivity].
  cbn [cache_set cache emit]. apply lookup_insert_ne. congruence.
Qed.


End Freshness.

(** C3: the root holds [a.scss], which imports [b], and the partial
    [_b.scss].  For every depth, the scan returns two tables, for the
    documents [a.scss] and [b.scss], and the table of [b.scss] is in the
    cache with the modification time of [_b.scss].  On a second scan, with
    the disk unchanged, the table of [a.scss] is taken from the cache, but
    [_b.scss] is read and parsed again: the cache is asked for the path with
    the underscore, under which nothing was stored. *)
Theorem C3_partial_parsed_again (D : Z) (fuel : nat) :
  exists r1 st1 r2 st2,
    scan_promise (doScanner Fixture.extract Fixture.w_partial (S fuel) "/r"
                    (Fixture.settings [] D false) Fixture.empty)
    = Some (Resolved r1, st1)
    /\ Fixture.documents r1 = ["/r/a.scss"; "/r/b.scss"]
    /\ ctime <$> cache st1 !! "/r/b.scss" = Some (Some 7)
    /\ statFile Fixture.w_partial "/r/_b.scss" = Some 7
    /\ cache st1 !! "/r/_b.scss" = None
    /\ scan_promise (doScanner Fixture.extract Fixture.w_partial (S fuel) "/r"
                       (scan_settings
                          (doScanner Fixture.extract Fixture.w_partial (S fuel) "/r"
                             (Fixture.settings [] D false) Fixture.empty))
                       st1)
       = Some (Resolved r2, st2)
    /\ r2 = r1
    /\ trace st2 = (trace st1 ++ [EvRead "/r/_b.scss"; EvParse "/r/b.scss"])%list.
Proof.
  destruct D as [|p|p]; eexists _, _, _, _;
    (split; [vm_compute; reflexivity|]);
    (split; [reflexivity|]); (split; [reflexivity|]);
    (split; [reflexivity|]); (split; [reflexivity|]);
    (split; [vm_compute; reflexivity|]); split; reflexivity.
Qed.

(** C4: the import resolution reaches the partial [lib/_b.scss], which the
    exclusion patterns keep out of the project scan.  After a first scan the
    cache holds its table, under [lib/b.scss], with the modification time of
    the file.  On a second scan, with the disk unchanged, the project file
    [a.scss] is taken from the cache without a read, but [lib/_b.scss] is
    read and parsed again. *)
Theorem C4_unchanged_partial_parsed_again (fuel : nat) :
  exists r1 st1 r2 st2,
    scan_promise (doScanner Fixture.extract Fixture.w_lib_partial (S (S fuel)) "/r"
                    (Fixture.settings ["**/lib"] 1 false) Fixture.empty)
    = Some (Resolved r1, st1)
    /\ Fixture.documents r1 = ["/r/a.scss"; "/r/lib/b.scss"]
    /\ ctime <$> cache st1 !! "/r/lib/b.scss" = Some (Some 7)
    /\ statFile Fixture.w_lib_partial "/r/lib/_b.scss" = Some 7
    /\ scan_promise (doScanner Fixture.extract Fixture.w_lib_partial (S (S fuel)) "/r"
                       (scan_settings
                          (doScanner Fixture.extract Fixture.w_lib_partial
                             (S (S fuel)) "/r"
                             (Fixture.settings ["**/lib"] 1 false) Fixture.empty))
                       st1)
       = Some (Resolved r2, st2)
    /\ r2 = r1
    /\ trace st2
       = (trace st1 ++ [EvStat "/r/lib/b.scss"; EvStat "/r/lib/_b.scss";
                        EvRead "/r/lib/_b.scss"; EvParse "/r/lib/b.scss"])%list.
Proof.
  eexists _, _, _, _.
  split; [vm_compute; reflexivity|].
  split; [reflexivity|]. split; [reflexivity|]. split; [reflexivity|].
  split; [vm_compute; reflexivity|]. split; reflexivity.
Qed.

(** ** A chain of imports *)

Section Chain.

Variable extract : string -> string -> ISettings -> option ISymbols.
Variable w : World.
Variable settings : ISettings.

(** The depth, and a chain of [n] files below the project file [f 0]: the
    file [f i] imports [f (i + 1)], the last one imports nothing. *)
Variable D n : nat.
Variable f : nat -> string.
Variable mtime : nat -> Z.
Variable text : nat -> string.
Variable body : nat -> ISymbols.
Variable A : ISymbols.

Hypothesis depth_D : scanImportedFilesDepth settings = Z.of_nat D.
Hypothesis chain_longer : (D <= n)%nat.
Hypothesis distinct : forall i j, (i <= n)%nat -> (j <= n)%nat -> f i = f j -> i = j.
Hypothesis on_disk :
  forall i, (1 <= i <= n)%nat -> fs w !! f i = Some (mkNode (mtime i) (Some (text i))).
Hypothesis no_partial :
  forall i, (1 <= i <= n)%nat -> fs w !! partialPath (f i) = None.
Hypothesis not_partial :
  forall i, (1 <= i <= n)%nat -> documentPath (f i) = f i.
Hypothesis parses :
  forall i, (1 <= i <= n)%nat -> extract (f i) (text i) settings = Some (body i).
Hypothesis next_import :
  forall i, (1 <= i < n)%nat -> imports (body i) = [mkImport (f (S i)) false false].
Hypothesis project_document : document A = f 0.
Hypothesis project_import : imports A = [mkImport (f 1) false false].

(** The table of the file [f i] as the extractor returns it; [A] for the
    project file. *)
Let tbl (i : nat) : ISymbols :=
  match i with
  | O => A
  | S _ => set_ctime (mtime i) (set_document (f i) (body i))
  end.

Lemma chain_imports (k : nat) :
  (k < n)%nat -> imports (tbl k) = [mkImport (f (S k)) false false].
Proof.
  destruct k as [|k]; intros Hk; [exact project_import|].
  cbn. apply next_import. lia.
Qed.

Lemma chain_candidates (k : nat) :
  (k < n)%nat ->
  importedFiles [A] [tbl k] = [f (S k); partialPath (f (S k))].
Proof.
  intros Hk. unfold importedFiles. cbn [flat_map]. rewrite chain_imports by exact Hk.
  cbn [flat_map]. unfold importCandidates. cbn [imp_dynamic imp_css orb imp_filepath].
  replace (isKnown [A] (f (S k))) with false; [reflexivity|].
  symmetry. cbn. rewrite orb_false_r, project_document.
  apply String.eqb_neq. intros Heq. apply distinct in Heq; lia.
Qed.

(** One wave on the frontier [[tbl k]]: the next file of the chain is
    stat-ed, read, parsed and cached, its partial-file sibling is stat-ed
    in vain, and the files further down are not touched. *)
Lemma chain_wave (k : nat) (st : State) :
  (k < n)%nat ->
  (forall j, (k < j <= n)%nat -> cache st !! f j = None) ->
  exists st',
    wave extract w [A] settings [tbl k] st = ([tbl (S k)], st')
    /\ (forall j, (S k < j <= n)%nat -> cache st' !! f j = None)
    /\ (forall j, (S k < j <= n)%nat ->
          stat_count (f j) (trace st') = stat_count (f j) (trace st)).
Proof.
  intros Hk Hcache. unfold wave. rewrite chain_candidates by exact Hk.
  cbn [probeAll]. unfold probe at 1. unfold statFile.
  rewrite on_disk by lia. cbn [fmap option_fmap option_map node_ctime].
  unfold cache_get. cbn [emit cache].
  rewrite Hcache by lia. cbn [fresh].
  rewrite (makeSymbols_resolved extract w _ settings _ (text (S k)) (body (S k)));
    cbn [makeEntryFile file_filepath file_ctime].
  2:{ unfold readFile. rewrite on_disk by lia. reflexivity. }
  2:{ rewrite not_partial by lia. apply parses. lia. }
  rewrite not_partial by lia.
  unfold probe. unfold statFile. rewrite no_partial by lia.
  cbn [fmap option_fmap option_map].
  eexists. split; [reflexivity|]. split.
  - intros j Hj. cbn [emit cache_set cache]. rewrite lookup_insert_ne.
    + apply Hcache. lia.
    + intros Heq. apply distinct in Heq; lia.
  - intros j Hj. cbn [emit cache_set trace]. unfold stat_count.
    rewrite !List.filter_app, !length_app. cbn [List.filter].
    assert (Hne : String.eqb (f j) (f (S k)) = false).
    { apply String.eqb_neq. intros Heq. apply distinct in Heq; lia. }
    assert (Hnp : String.eqb (f j) (partialPath (f (S k))) = false).
    { apply String.eqb_neq. intros Heq.
      pose proof (on_disk j ltac:(lia)) as Hd. rewrite Heq in Hd.
      rewrite no_partial in Hd by lia. discriminate Hd. }
    rewrite Hne, Hnp. cbn [length]. lia.
Qed.

(** The resolution started on wave [k] of the chain runs up to the depth. *)
Lemma chain_recurse (fuel k : nat) (accum : list ISymbols) (st : State) :
  (k <= D)%nat -> (D - k < fuel)%nat ->
  (forall j, (k < j <= n)%nat -> cache st !! f j = None) ->
  exists st',
    recurse extract w fuel [A] settings (Z.of_nat k) accum [tbl k] st
    = Some ((accum ++ map tbl (seq (S k) (D - k)))%list, Z.of_nat D, st')
    /\ (forall j, (D < j <= n)%nat ->
          stat_count (f j) (trace st') = stat_count (f j) (trace st)).
Proof.
  revert k accum st. induction fuel as [|fuel IH]; intros k accum st Hk Hf Hc; [lia|].
  cbn [recurse orb]. rewrite depth_D.
  destruct (Z.eqb_spec (Z.of_nat k) (Z.of_nat D)) as [He|He].
  - apply Nat2Z.inj in He. subst k. rewrite Nat.sub_diag. cbn [seq map].
    rewrite app_nil_r. eauto.
  - assert (Hlt : (k < D)%nat) by lia.
    rewrite chain_candidates by lia.
    destruct (chain_wave k st ltac:(lia) Hc) as (st1 & Hw & Hc1 & Hs1).
    unfold wave in Hw. rewrite chain_candidates in Hw by lia. rewrite Hw.
    replace (Z.of_nat k + 1) with (Z.of_nat (S k)) by lia.
    destruct (IH (S k) (accum ++ [tbl (S k)])%list st1 ltac:(lia) ltac:(lia) Hc1)
      as (st' & Hr & Hs').
    exists st'. split.
    + rewrite Hr. replace (D - k)%nat with (S (D - S k)) by lia.
      cbn [seq map]. rewrite <- app_assoc. reflexivity.
    + intros j Hj. rewrite Hs' by exact Hj. apply Hs1. lia.
Qed.

(** X15: with the depth [D], the resolution of a chain of [n >= D] imports
    returns the tables of its first [D] files, in order, and ends with the
    counter at [D]; the files further down the chain are not in the result
    and are not even stat-ed. *)
Lemma chain_truncated (fuel : nat) (st : State) :
  (D < fuel)%nat ->
  (forall j, (1 <= j <= n)%nat -> cache st !! f j = None) ->
  exists accum st',
    scannerImportedFiles extract w fuel [A] settings st
    = Some (accum, Z.of_nat D, st')
    /\ map document accum = map f (seq 1 D)
    /\ (forall j, (D < j <= n)%nat -> ~ In (f j) (map document accum))
    /\ (forall j, (D < j <= n)%nat ->
          stat_count (f j) (trace st') = stat_count (f j) (trace st)).
Proof.
  intros Hfuel Hcache.
  destruct (chain_recurse fuel 0 [] st ltac:(lia) ltac:(lia)) as (st' & Hr & Hs).
  { intros j Hj. apply Hcache. lia. }
  rewrite Nat.sub_0_r in Hr. cbn [app] in Hr.
  assert (Hdocs : map document (map tbl (seq 1 D)) = map f (seq 1 D)).
  { rewrite map_map. apply map_ext_in. intros i Hi. apply in_seq in Hi.
    destruct i as [|i]; [lia | reflexivity]. }
  exists (map tbl (seq 1 D)), st'. split; [exact Hr|]. split; [exact Hdocs|].
  split; [|exact Hs].
  intros j Hj Hin. rewrite Hdocs in Hin. apply in_map_iff in Hin as (i & Heq & Hi).
  apply in_seq in Hi. apply distinct in Heq; lia.
Qed.

End Chain.

(** The chain of seven imports of the fixture, with the depth [2]. *)
Lemma chain_truncated_fixture :
  exists accum st',
    scannerImportedFiles Fixture.extract Fixture.w_chain 3 Fixture.project_chain
      (Fixture.settings ["**/lib"] 2 false) Fixture.empty
    = Some (accum, 2, st')
    /\ map document accum = ["/r/lib/f1.scss"; "/r/lib/f2.scss"]
    /\ (forall j, (2 < j <= 7)%nat -> ~ In (Fixture.chain_file j) (map document accum))
    /\ (forall j, (2 < j <= 7)%nat ->
          stat_count (Fixture.chain_file j) (trace st') = 0%nat).
Proof.
  assert (Hcases : forall i, (1 <= i <= 7)%nat ->
            i = 1%nat \/ i = 2%nat \/ i = 3%nat \/ i = 4%nat \/ i = 5%nat
            \/ i = 6%nat \/ i = 7%nat) by (intros; lia).
  apply (chain_truncated Fixture.extract Fixture.w_chain
           (Fixture.settings ["**/lib"] 2 false) 2 7 Fixture.chain_file
           (fun _ => 6) Fixture.chain_text Fixture.chain_body
           (Fixture.table "/r/a.scss" 5 "/r/lib/f1.scss")).
  - reflexivity.
  - lia.
  - intros i j Hi Hj Heq.
    do 8 (destruct i as [|i];
          [do 8 (destruct j as [|j]; [first [reflexivity | discriminate Heq]|]); lia|]).
    lia.
  - intros i Hi.
    destruct (Hcases i Hi) as [->|[->|[->|[->|[->|[->| ->]]]]]]; vm_compute; reflexivity.
  - intros i Hi.
    destruct (Hcases i Hi) as [->|[->|[->|[->|[->|[->| ->]]]]]]; vm_compute; reflexivity.
  - intros i Hi.
    destruct (Hcases i Hi) as [->|[->|[->|[->|[->|[->| ->]]]]]]; vm_compute; reflexivity.
  - intros i Hi.
    destruct (Hcases i Hi) as [->|[->|[->|[->|[->|[->| ->]]]]]]; vm_compute; reflexivity.
  - intros i Hi.
    assert (Hc : i = 1%nat \/ i = 2%nat \/ i = 3%nat \/ i = 4%nat \/ i = 5%nat
                 \/ i = 6%nat) by lia.
    destruct Hc as [->|[->|[->|[->|[->| ->]]]]]; reflexivity.
  - reflexivity.
  - reflexivity.
  - lia.
  - intros j Hj. reflexivity.
Defined.

(** ** A depth that is not a natural number *)

(** Once the file that imports itself is in the cache, every wave finds it
    again, and with the depth [-1] the counter never meets the depth. *)
Lemma self_import_wave_again (fuel : nat) (nesting : Z) (accum : list ISymbols)
    (st : State) :
  0 <= nesting ->
  cache st !! "/r/lib/x.scss" = Some Fixture.table_self ->
  recurse Fixture.extract Fixture.w_self fuel Fixture.project_self
    (Fixture.settings ["**/lib"] (-1) false) nesting accum [Fixture.table_self] st
  = None.
Proof.
  revert nesting accum st.
  induction fuel as [|fuel IH]; intros nesting accum st Hn Hc; [reflexivity|].
  cbn [recurse orb].
  replace (nesting =? scanImportedFilesDepth (Fixture.settings ["**/lib"] (-1) false))
    with false by (symmetry; apply Z.eqb_neq; cbn; lia).
  change (importedFiles Fixture.project_self [Fixture.table_self])
    with ["/r/lib/x.scss"; "/r/lib/_x.scss"].
  cbn [probeAll]. unfold probe.
  change (statFile Fixture.w_self "/r/lib/x.scss") with (Some 6).
  change (statFile Fixture.w_self "/r/lib/_x.scss") with (@None Z).
  unfold cache_get. cbn [emit cache]. rewrite Hc.
  change (fresh (Some Fixture.table_self) (makeEntryFile "/r/lib/x.scss" 6))
    with (Some Fixture.table_self).
  cbv iota beta. apply IH; [lia | exact Hc].
Qed.

(** The precondition on the depth is needed: with the depth [-1] and a file
    that imports itself, the resolution does not come to an end, whatever
    the fuel. *)
Example negative_depth_never_ends (fuel : nat) :
  scannerImportedFiles Fixture.extract Fixture.w_self fuel Fixture.project_self
    (Fixture.settings ["**/lib"] (-1) false) Fixture.empty
  = None.
Proof.
  destruct fuel as [|fuel]; [reflexivity|].
  unfold scannerImportedFiles. cbn [recurse].
  change (importedFiles Fixture.project_self Fixture.project_self)
    with ["/r/lib/x.scss"; "/r/lib/_x.scss"].
  cbn [Fixture.project_self orb Z.eqb Fixture.settings scanImportedFilesDepth].
  destruct (probeAll Fixture.extract Fixture.w_self _ _ Fixture.empty)
    as [resultList st'] eqn:Hp.
  vm_compute in Hp. injection Hp as <- <-.
  apply self_import_wave_again; [lia | reflexivity].
Qed.

(** * Further properties of the scanner *)

(** ** The file filter *)

Lemma substring_all (s : string) : String.substring 0 (String.length s) s = s.
Proof. induction s as [|a s IH]; [reflexivity|]. cbn. now rewrite IH. Qed.

Lemma substring_skip (pre t : string) (k : nat) :
  String.substring (String.length pre) k (pre +:+ t) = String.substring 0 k t.
Proof.
  induction pre as [|a pre IH]; [reflexivity|].
  rewrite append_cons. cbn [String.length String.substring]. exact IH.
Qed.

Lemma length_append (a b : string) :
  String.length (a +:+ b) = (String.length a + String.length b)%nat.
Proof.
  induction a as [|x a IH]; [reflexivity|].
  rewrite append_cons. cbn [String.length]. now rewrite IH.
Qed.

Lemma substring_length_le (s : string) (m k : nat) :
  (String.length (String.substring m k s) <= k)%nat.
Proof.
  revert m k. induction s as [|a s IH]; intros m k.
  - destruct m, k; cbn; lia.
  - destruct m as [|m]; [destruct k as [|k]; cbn; [lia|] | cbn; apply IH].
    specialize (IH 0%nat k). lia.
Qed.

Lemma substring_split (s : string) (m k : nat) :
  (m + k = String.length s)%nat ->
  s = String.substring 0 m s +:+ String.substring m k s.
Proof.
  revert m k. induction s as [|a s IH]; intros m k H.
  - cbn in H. assert (m = 0%nat) by lia. assert (k = 0%nat) by lia. subst. reflexivity.
  - destruct m as [|m].
    + cbn in H. subst k. cbn [String.substring].
      rewrite append_nil_l, substring_all. reflexivity.
    + cbn [String.substring]. rewrite append_cons. f_equal. apply IH.
      cbn in H. lia.
Qed.

Lemma substring_short (s : string) (k : nat) :
  (String.length s <= k)%nat -> String.substring 0 k s = s.
Proof.
  revert k. induction s as [|a s IH]; intros k H.
  - destruct k; reflexivity.
  - destruct k as [|k]; [cbn in H; lia|]. cbn. rewrite IH; [reflexivity|].
    cbn in H. lia.
Qed.

(** [s.slice(-t.length) === t] holds exactly when [s] is some string
    followed by [t]. *)
Lemma ends_with_spec (t s : string) :
  Str.ends_with t s = true <-> exists pre, s = pre +:+ t.
Proof.
  unfold Str.ends_with. rewrite String.eqb_eq. split.
  - intros H.
    assert (Hk : (String.length t <= String.length s)%nat).
    { destruct (Nat.le_gt_cases (String.length t) (String.length s)) as [Hle|Hgt];
        [exact Hle|].
      replace (String.length s - String.length t)%nat with 0%nat in H by lia.
      rewrite substring_short in H by lia. subst. lia. }
    exists (String.substring 0 (String.length s - String.length t) s).
    pose proof (substring_split s (String.length s - String.length t)
                  (String.length t) ltac:(lia)) as Hsp.
    rewrite H in Hsp. exact Hsp.
  - intros [pre ->]. rewrite length_append.
    replace (String.length pre + String.length t - String.length t)%nat
      with (String.length pre) by lia.
    rewrite substring_skip. apply substring_all.
Qed.

(** ** The regular expression [reGlobBaseName] *)

Lemma drop_final_slash_cases (s : string) :
  s = Pattern.drop_final_slash s \/ s = Pattern.drop_final_slash s +:+ "/".
Proof.
  induction s as [|c r IH]; [left; reflexivity|].
  destruct r as [|d r].
  - cbn [Pattern.drop_final_slash].
    destruct (Ascii.eqb_spec c Str.slash) as [->|]; [right | left]; reflexivity.
  - change (Pattern.drop_final_slash (String c (String d r)))
      with (String c (Pattern.drop_final_slash (String d r))).
    destruct IH as [IH|IH]; [left | right; rewrite append_cons];
      rewrite <- IH; reflexivity.
Qed.

Lemma drop_final_slash_app (s : string) : Pattern.drop_final_slash (s +:+ "/") = s.
Proof.
  induction s as [|c r IH]; [reflexivity|].
  rewrite append_cons.
  destruct (r +:+ "/") as [|d r'] eqn:Hr.
  - destruct r; discriminate Hr.
  - change (Pattern.drop_final_slash (String c (String d r')))
      with (String c (Pattern.drop_final_slash (String d r'))).
    rewrite IH. reflexivity.
Qed.

(** X13: the expression accepts exactly the patterns [**/<name>] and
    [**/<name>/] whose name is a non-empty run of word characters, dots and
    hyphens. *)
Theorem reGlobBaseName_accepts (pattern : string) :
  Pattern.reGlobBaseName_test pattern = true <->
  exists name,
    name <> "" /\ Pattern.all_name_chars name = true
    /\ (pattern = "**/" +:+ name \/ pattern = ("**/" +:+ name) +:+ "/").
Proof.
  split.
  - unfold Pattern.reGlobBaseName_test.
    destruct (Str.strip_prefix "**/" pattern) as [rest|] eqn:Hs; [|discriminate].
    apply strip_prefix_spec in Hs. intros H. apply andb_true_iff in H as [Hne Hall].
    exists (Pattern.drop_final_slash rest). split; [|split; [exact Hall|]].
    + intros Heq. rewrite Heq in Hne. discriminate Hne.
    + destruct (drop_final_slash_cases rest) as [Hr|Hr].
      * left. rewrite <- Hr. exact Hs.
      * right. rewrite append_assoc, <- Hr. exact Hs.
  - intros (name & Hne & Hall & [->| ->]).
    + apply reGlobBaseName_name; assumption.
    + unfold Pattern.reGlobBaseName_test. rewrite append_assoc.
      replace (Str.strip_prefix "**/" ("**/" +:+ name +:+ "/"))
        with (Some (name +:+ "/"))
        by (symmetry; apply strip_prefix_spec; reflexivity).
      rewrite drop_final_slash_app, Hall.
      apply String.eqb_neq in Hne. rewrite Hne. reflexivity.
Qed.

(** ** What [doScanner] leaves of the settings *)

(** X17: [doScanner] changes nothing of the settings but the exclusion
    list, and it leaves that list as it was when the list is missing or has
    no pattern that the expression accepts. *)
Theorem doScanner_settings_kept extract w (fuel : nat) (root : string)
    (settings : ISettings) (st : State) :
  scannerDepth (scan_settings (doScanner extract w fuel root settings st))
  = scannerDepth settings
  /\ scanImportedFiles (scan_settings (doScanner extract w fuel root settings st))
     = scanImportedFiles settings
  /\ scanImportedFilesDepth (scan_settings (doScanner extract w fuel root settings st))
     = scanImportedFilesDepth settings
  /\ showErrors (scan_settings (doScanner extract w fuel root settings st))
     = showErrors settings
  /\ (scannerExclude settings = None ->
      scan_settings (doScanner extract w fuel root settings st) = settings)
  /\ (forall pats, scannerExclude settings = Some pats ->
        (forall p, In p pats -> Pattern.reGlobBaseName_test p = false) ->
        scan_settings (doScanner extract w fuel root settings st) = settings).
Proof.
  rewrite doScanner_settings.
  split; [reflexivity|]. split; [reflexivity|]. split; [reflexivity|].
  split; [reflexivity|]. split.
  - intros H. destruct settings. cbn in *. subst. reflexivity.
  - intros pats H Hno. destruct settings. cbn in *. subst. cbn. unfold expandExclude.
    replace (List.filter Pattern.reGlobBaseName_test pats) with (@nil string).
    + cbn. rewrite app_nil_r. reflexivity.
    + symmetry. induction pats as [|p pats IH]; [reflexivity|].
      cbn. rewrite Hno by (left; reflexivity). apply IH.
      intros q Hq. apply Hno. right. exact Hq.
Qed.

(** ** The project scan *)

Section ProjectPass.

Variable extract : string -> string -> ISettings -> option ISymbols.
Variable w : World.

Lemma acceptedFiles_In (excl : option (list string)) (items : list StreamItem)
    (stat : IEntry) :
  In stat (acceptedFiles excl items) <->
  In (Found stat) items /\ scannerFilter stat excl = true /\ entry_isFile stat = true.
Proof.
  induction items as [|[s|err] items IH]; cbn [acceptedFiles In].
  - tauto.
  - destruct (scannerFilter s excl && entry_isFile s) eqn:Hs; cbn [In]; rewrite IH.
    + apply andb_true_iff in Hs as [H1 H2]. split.
      * intros [<-|H]; [auto | tauto].
      * intros [[[= ->]|H] H']; [left; reflexivity | right; tauto].
    + split; [tauto|]. intros [[[= ->]|H] [H1 H2]]; [|tauto].
      rewrite H1, H2 in Hs. discriminate Hs.
  - rewrite IH. split; [tauto|]. intros [[[=]|H] H']; tauto.
Qed.

(** The calls the extractor makes for one file. *)
Lemma makeSymbols_trace (entry : IFile) (settings : ISettings) (st st' : State)
    (r : Result ISymbols) :
  makeSymbolsForDocument extract w entry settings st = (r, st') ->
  exists evs,
    trace st' = (trace st ++ evs)%list
    /\ forall e, In e evs ->
         e = EvRead (file_filepath entry)
         \/ e = EvParse (documentPath (file_filepath entry)).
Proof.
  unfold makeSymbolsForDocument.
  destruct (readFile w (file_filepath entry)) as [data|].
  - destruct (parseDocument extract _ data settings); intros [= <- <-];
      exists [EvRead (file_filepath entry);
              EvParse (documentPath (file_filepath entry))];
      (split; [cbn [cache_set emit trace]; rewrite <- app_assoc; reflexivity|]);
      intros e [<-|[<-|[]]]; auto.
  - intros [= <- <-]. exists [EvRead (file_filepath entry)].
    split; [reflexivity|]. intros e [<-|[]]; auto.
Qed.

Lemma onFile_trace (settings : ISettings) (stat : IEntry) (st st' : State)
    (r : Result ISymbols) :
  onFile extract w settings stat st = (r, st') ->
  exists evs,
    trace st' = (trace st ++ evs)%list
    /\ forall e, In e evs ->
         e = EvRead (entry_path stat) \/ e = EvParse (documentPath (entry_path stat)).
Proof.
  unfold onFile. destruct (fresh _ _).
  - intros [= <- <-]. exists []. split; [rewrite app_nil_r; reflexivity | intros e []].
  - apply makeSymbols_trace.
Qed.

(** X2: the project scan hands one promise to [Promise.all] for each entry
    of the stream that passes the filter and is a file, and the only calls
    it makes are reads of such files and runs of the parser on their
    document paths; the path of each of them ends with [.scss], and no file
    is stat-ed. *)
Theorem project_pass_calls (settings : ISettings) (excl : option (list string))
    (items : list StreamItem) (settled settled' : option (Result (list ISymbols)))
    (st st' : State) (l : list (Result ISymbols)) :
  runStream extract w settings excl items settled st = (l, settled', st') ->
  length l = length (acceptedFiles excl items)
  /\ exists evs,
       trace st' = (trace st ++ evs)%list
       /\ forall e, In e evs ->
            exists stat pre,
              In (Found stat) items /\ entry_isFile stat = true
              /\ scannerFilter stat excl = true
              /\ entry_path stat = pre +:+ ".scss"
              /\ (e = EvRead (entry_path stat)
                  \/ e = EvParse (documentPath (entry_path stat))).
Proof.
  revert settled settled' st st' l.
  induction items as [|[stat|err] items IH]; intros settled settled' st st' l;
    cbn [runStream acceptedFiles].
  - intros [= <- <- <-]. split; [reflexivity|]. exists [].
    split; [rewrite app_nil_r; reflexivity | intros e []].
  - destruct (scannerFilter stat excl && entry_isFile stat) eqn:Hs.
    + destruct (onFile extract w settings stat st) as [p st1] eqn:Hon.
      destruct (runStream extract w settings excl items settled st1)
        as [[ps s2] st2] eqn:Hrun.
      intros [= <- <- <-].
      destruct (IH _ _ _ _ _ Hrun) as (Hlen & evs2 & Ht2 & Hev2).
      apply onFile_trace in Hon as (evs1 & Ht1 & Hev1).
      apply andb_true_iff in Hs as [Hf Hi].
      split; [cbn [length]; rewrite Hlen; reflexivity|].
      exists (evs1 ++ evs2)%list. split; [rewrite Ht2, Ht1, app_assoc; reflexivity|].
      intros e He. apply in_app_or in He as [He|He].
      * assert (Hend : Str.ends_with ".scss" (entry_path stat) = true).
        { unfold scannerFilter in Hf. rewrite Hi in Hf.
          destruct (match excl with Some ps0 => _ | None => false end);
            [discriminate Hf | exact Hf]. }
        apply ends_with_spec in Hend as [pre Hpre].
        exists stat, pre. split; [left; reflexivity|]. auto.
      * destruct (Hev2 e He) as (s0 & pre & Hin & H). exists s0, pre.
        split; [right; exact Hin | exact H].
    + intros Hrun. destruct (IH _ _ _ _ _ Hrun) as (Hlen & evs & Ht & Hev).
      split; [exact Hlen|]. exists evs. split; [exact Ht|].
      intros e He. destruct (Hev e He) as (s0 & pre & Hin & H). exists s0, pre.
      split; [right; exact Hin | exact H].
  - intros Hrun. destruct (IH _ _ _ _ _ Hrun) as (Hlen & evs & Ht & Hev).
    split; [exact Hlen|]. exists evs. split; [exact Ht|].
    intros e He. destruct (Hev e He) as (s0 & pre & Hin & H). exists s0, pre.
    split; [right; exact Hin | exact H].
Qed.

(** X3: when the cache holds, under the path of every file the stream lets
    through, a table that is at least as recent as the file, the project
    scan resolves every promise with the cached table, in the order of the
    stream, and makes no call and no change to the cache at all. *)
Theorem project_pass_served_from_cache (settings : ISettings)
    (excl : option (list string)) (items : list StreamItem)
    (settled : option (Result (list ISymbols))) (st : State) :
  (forall stat, In stat (acceptedFiles excl items) ->
     exists c, cache st !! entry_path stat = Some c /\ recentAs c (entry_ctime stat)) ->
  exists cs settled',
    runStream extract w settings excl items settled st = (map Resolved cs, settled', st)
    /\ Forall2 (fun stat c => cache st !! entry_path stat = Some c)
         (acceptedFiles excl items) cs.
Proof.
  revert settled. induction items as [|[stat|err] items IH]; intros settled Hall;
    cbn [runStream acceptedFiles] in *.
  - exists [], settled. split; [reflexivity | constructor].
  - destruct (scannerFilter stat excl && entry_isFile stat).
    + destruct (Hall stat (or_introl eq_refl)) as (c & Hc & t & Ht & Hle).
      rewrite (onFile_hit extract w settings stat st c t Hc Ht Hle).
      destruct (IH settled (fun s0 H0 => Hall s0 (or_intror H0)))
        as (cs & s' & Hrun & Hcs).
      rewrite Hrun. exists (c :: cs), s'. split; [reflexivity|].
      constructor; assumption.
    + apply IH, Hall.
  - apply IH, Hall.
Qed.

(** What the stream's errors do to the promise. *)
Lemma runStream_settled (settings : ISettings) (excl : option (list string))
    (items : list StreamItem) (settled settled' : option (Result (list ISymbols)))
    (st st' : State) (l : list (Result ISymbols)) :
  runStream extract w settings excl items settled st = (l, settled', st') ->
  settled'
  = match settled with
    | Some _ => settled
    | None => if showErrors settings then Rejected <$> firstFailure items else None
    end.
Proof.
  revert settled settled' st st' l.
  induction items as [|[stat|err] items IH]; intros settled settled' st st' l;
    cbn [runStream firstFailure].
  - intros [= <- <- <-]. destruct settled, (showErrors settings); reflexivity.
  - destruct (scannerFilter stat excl && entry_isFile stat).
    + destruct (onFile extract w settings stat st) as [p st1].
      destruct (runStream extract w settings excl items settled st1)
        as [[ps s2] st2] eqn:Hrun.
      intros [= <- <- <-]. exact (IH _ _ _ _ _ Hrun).
    + apply IH.
  - intros Hrun. apply IH in Hrun. rewrite Hrun.
    destruct settled, (showErrors settings); reflexivity.
Qed.

(** Without [showErrors] the errors of the stream change nothing. *)
Lemma runStream_dropFailures (settings : ISettings) (excl : option (list string))
    (items : list StreamItem) (settled : option (Result (list ISymbols))) (st : State) :
  showErrors settings = false ->
  runStream extract w settings excl items settled st
  = runStream extract w settings excl (dropFailures items) settled st.
Proof.
  intros Hshow. revert settled st.
  induction items as [|[stat|err] items IH]; intros settled st;
    cbn [runStream dropFailures].
  - reflexivity.
  - destruct (scannerFilter stat excl && entry_isFile stat); [|apply IH].
    destruct (onFile extract w settings stat st) as [p st1]. rewrite IH. reflexivity.
  - rewrite Hshow. apply IH.
Qed.

(** X10: with [showErrors] on and a depth that is a natural number, an
    error of the directory stream rejects the scan, with the first error of
    the stream, whatever the files hold. *)
Theorem strict_stream_error_rejects (fuel : nat) (root : string)
    (settings : ISettings) (st : State) (err : Err) :
  showErrors settings = true ->
  firstFailure (readdirStreamStat w root (scannerDepth settings)) = Some err ->
  0 <= scanImportedFilesDepth settings ->
  (Z.to_nat (scanImportedFilesDepth settings) < fuel)%nat ->
  scan_result (doScanner extract w fuel root settings st) = Some (Rejected err).
Proof.
  intros Hshow Hfirst HD Hfuel. unfold doScanner, scan_result.
  cbn [scannerDepth set_scannerExclude].
  destruct (runStream extract w _ _ _ None st) as [[l settled] st1] eqn:Hrun.
  apply runStream_settled in Hrun.
  cbn [showErrors set_scannerExclude] in Hrun. rewrite Hshow, Hfirst in Hrun.
  cbn in Hrun. subst settled. cbn [scan_promise].
  destruct (promiseAll l) as [ps|e].
  - cbn [scanImportedFiles set_scannerExclude].
    destruct (scanImportedFiles settings); [|reflexivity].
    destruct (recurse_terminates extract w fuel ps
                (set_scannerExclude (expandExclude <$> scannerExclude settings) settings)
                0 [] ps st1) as (a & n & s & Hr & _);
      [cbn; lia | cbn; rewrite Z.sub_0_r; exact Hfuel |].
    unfold scannerImportedFiles. rewrite Hr. reflexivity.
  - cbn [showErrors set_scannerExclude]. rewrite Hshow. reflexivity.
Qed.

End ProjectPass.

(** ** Errors of the stream and of the files *)

Section SameDisk.

Variable extract : string -> string -> ISettings -> option ISymbols.
Variables w w' : World.
Hypothesis same_fs : fs w' = fs w.

Lemma makeSymbols_same_disk (entry : IFile) (settings : ISettings) (st : State) :
  makeSymbolsForDocument extract w' entry settings st
  = makeSymbolsForDocument extract w entry settings st.
Proof. unfold makeSymbolsForDocument, readFile. rewrite same_fs. reflexivity. Qed.

Lemma onFile_same_disk (settings : ISettings) (stat : IEntry) (st : State) :
  onFile extract w' settings stat st = onFile extract w settings stat st.
Proof. unfold onFile. rewrite makeSymbols_same_disk. reflexivity. Qed.

Lemma probe_same_disk (settings : ISettings) (p : string) (st : State) :
  probe extract w' settings p st = probe extract w settings p st.
Proof.
  unfold probe, statFile. rewrite same_fs.
  destruct (node_ctime <$> fs w !! p); [|reflexivity].
  rewrite makeSymbols_same_disk. reflexivity.
Qed.

Lemma probeAll_same_disk (settings : ISettings) (files : list string) (st : State) :
  probeAll extract w' settings files st = probeAll extract w settings files st.
Proof.
  revert st. induction files as [|f files IH]; intros st; [reflexivity|].
  cbn [probeAll]. rewrite probe_same_disk.
  destruct (probe extract w settings f st) as [o st1]. rewrite IH. reflexivity.
Qed.

Lemma recurse_same_disk (fuel : nat) (symbolsList : list ISymbols)
    (settings : ISettings) (nesting : Z) (accum lst : list ISymbols) (st : State) :
  recurse extract w' fuel symbolsList settings nesting accum lst st
  = recurse extract w fuel symbolsList settings nesting accum lst st.
Proof.
  revert nesting accum lst st. induction fuel as [|fuel IH]; intros; [reflexivity|].
  cbn [recurse]. destruct (_ || _); [reflexivity|].
  destruct (importedFiles symbolsList lst) as [|f files]; [reflexivity|].
  rewrite probeAll_same_disk.
  destruct (probeAll extract w settings (f :: files) st) as [resultList st'].
  apply IH.
Qed.

Lemma runStream_same_disk (settings : ISettings) (excl : option (list string))
    (items : list StreamItem) (settled : option (Result (list ISymbols))) (st : State) :
  runStream extract w' settings excl items settled st
  = runStream extract w settings excl items settled st.
Proof.
  revert settled st. induction items as [|[stat|err] items IH]; intros settled st;
    cbn [runStream]; [reflexivity | | apply IH].
  destruct (_ && _); [|apply IH]. rewrite onFile_same_disk.
  destruct (onFile extract w settings stat st) as [p st1]. rewrite IH. reflexivity.
Qed.

(** X11: without [showErrors] the errors of the directory stream are
    ignored: the scan does what it does on the same disk when the stream
    gives the same entries and no error. *)
Theorem lenient_stream_errors_ignored (fuel : nat) (root : string)
    (settings : ISettings) (st : State) :
  showErrors settings = false ->
  readdirStreamStat w' root (scannerDepth settings)
  = dropFailures (readdirStreamStat w root (scannerDepth settings)) ->
  doScanner extract w' fuel root settings st = doScanner extract w fuel root settings st.
Proof.
  intros Hshow Hitems. unfold doScanner. cbn [scannerDepth set_scannerExclude].
  rewrite Hitems, runStream_same_disk.
  rewrite <- (runStream_dropFailures extract w) by exact Hshow.
  destruct (runStream extract w _ _ _ None st) as [[l settled] st1].
  f_equal. destruct (promiseAll l); [|reflexivity].
  unfold scannerImportedFiles. rewrite recurse_same_disk. reflexivity.
Qed.

End SameDisk.

Section StrictFiles.

Variable extract : string -> string -> ISettings -> option ISymbols.
Variable w : World.

(** X9: with [showErrors] on, a file that cannot be read rejects the scan
    with the error of that read: the stream gives a file that reads and
    parses and then a file whose read fails, and the promise of [doScanner]
    is rejected with the error of the second file; the table of the first
    file is not returned. *)
Theorem strict_unreadable_file_rejects (settings : ISettings) (root : string)
    (st : State) (fuel : nat) (pa pb data : string) (ta tb : Z) (s : ISymbols) :
  showErrors settings = true ->
  readdirStreamStat w root (scannerDepth settings)
  = [Found (mkEntry pa true ta); Found (mkEntry pb true tb)] ->
  scannerFilter (mkEntry pa true ta) (expandExclude <$> scannerExclude settings) = true ->
  scannerFilter (mkEntry pb true tb) (expandExclude <$> scannerExclude settings) = true ->
  cache st !! pa = None -> cache st !! pb = None -> documentPath pa <> pb ->
  readFile w pa = Some data ->
  extract (documentPath pa) data
    (set_scannerExclude (expandExclude <$> scannerExclude settings) settings) = Some s ->
  readFile w pb = None ->
  scan_result (doScanner extract w fuel root settings st)
  = Some (Rejected (ReadError pb)).
Proof.
  intros Hshow Hstream Hfa Hfb Hca Hcb Hne Hra Hea Hrb.
  unfold doScanner. cbn [scannerDepth set_scannerExclude]. rewrite Hstream.
  cbn [runStream]. rewrite Hfa, Hfb. cbn [entry_isFile andb].
  rewrite onFile_miss by exact Hca. cbn [entry_path entry_ctime].
  rewrite (makeSymbols_resolved extract w (makeEntryFile pa ta) _ st data s Hra Hea).
  cbn [makeEntryFile file_filepath file_ctime].
  rewrite onFile_miss
    by (cbn [cache_set emit cache entry_path]; rewrite lookup_insert_ne; assumption).
  cbn [entry_path entry_ctime].
  rewrite (makeSymbols_unreadable extract w (makeEntryFile pb tb) _ _ Hrb).
  cbn [promiseAll scan_promise showErrors set_scannerExclude]. rewrite Hshow.
  reflexivity.
Qed.

End StrictFiles.

(** ** The cache across scans *)

Section CacheFacts.

Variable extract : string -> string -> ISettings -> option ISymbols.
Variable w : World.

(** When is a cached table not taken? *)
Lemma fresh_stale (cached : option ISymbols) (entry : IFile) (c : ISymbols) :
  cached = Some c ->
  ctime c = None \/ (exists t, ctime c = Some t /\ t < file_ctime entry) ->
  fresh cached entry = None.
Proof.
  intros -> [H|(t & H & Hlt)]; unfold fresh; rewrite H; [reflexivity|].
  destruct (Z.leb_spec (file_ctime entry) t); [lia | reflexivity].
Qed.

(** X5: a cached table that carries no time, or a time older than the
    file's, is not used: the file handler reads and parses the file again
    and puts the new table, stamped with the file's time, in the cache under
    the document path. *)
Theorem stale_entry_extracted_again (settings : ISettings) (stat : IEntry)
    (st : State) (c s : ISymbols) (data : string) :
  cache st !! entry_path stat = Some c ->
  ctime c = None \/ (exists t, ctime c = Some t /\ t < entry_ctime stat) ->
  readFile w (entry_path stat) = Some data ->
  extract (documentPath (entry_path stat)) data settings = Some s ->
  exists t' st',
    onFile extract w settings stat st = (Resolved t', st')
    /\ document t' = documentPath (entry_path stat)
    /\ ctime t' = Some (entry_ctime stat)
    /\ variables t' = variables s /\ imports t' = imports s
    /\ cache st' = <[documentPath (entry_path stat) := t']> (cache st)
    /\ read_in (entry_path stat) (trace st') = true
    /\ parsed_in (documentPath (entry_path stat)) (trace st') = true.
Proof.
  intros Hc Hstale Hr He. unfold onFile.
  rewrite (fresh_stale _ _ c) by (cbn [makeEntryFile file_filepath file_ctime]; auto).
  rewrite (makeSymbols_resolved extract w _ settings st data s)
    by (cbn [makeEntryFile file_filepath]; assumption).
  cbn [makeEntryFile file_filepath file_ctime].
  eexists _, _. split; [reflexivity|].
  repeat (split; [reflexivity|]).
  cbn [cache_set emit trace]. unfold read_in, parsed_in.
  rewrite !existsb_app. cbn [existsb]. rewrite !String.eqb_refl.
  split; [rewrite !orb_true_r; reflexivity | apply orb_true_r].
Qed.

(** What the extractor leaves under the document path of the file. *)
Lemma makeSymbols_own_key (entry : IFile) (settings : ISettings) (st st' : State)
    (r : Result ISymbols) :
  makeSymbolsForDocument extract w entry settings st = (r, st') ->
  cache st' = cache st
  \/ exists t, cache st' !! documentPath (file_filepath entry) = Some t
               /\ ctime t = Some (file_ctime entry).
Proof.
  unfold makeSymbolsForDocument.
  destruct (readFile w (file_filepath entry)) as [data|]; [|intros [= <- <-]; auto].
  destruct (parseDocument extract _ data settings) as [s|]; intros [= <- <-]; [|auto].
  right. eexists. split; [apply lookup_insert_eq | reflexivity].
Qed.

(** One handling of a file that is not a partial, by the file handler or
    by a probe of the resolver: hit, new extraction or failure, the entry
    under the path of the file is still there afterwards, with a time that
    is not older. *)
Lemma own_key_step (settings : ISettings) (p : string)
    (st : State) (c : ISymbols) (t : Z) :
  documentPath p = p ->
  cache st !! p = Some c -> ctime c = Some t ->
  (forall mtime r st',
     onFile extract w settings (mkEntry p true mtime) st = (r, st') ->
     exists c' t', cache st' !! p = Some c' /\ ctime c' = Some t' /\ t <= t')
  /\ (forall o st',
        probe extract w settings p st = (o, st') ->
        exists c' t', cache st' !! p = Some c' /\ ctime c' = Some t' /\ t <= t').
Proof.
  intros Hdoc Hc Ht.
  assert (Hmk : forall mtime st0 r st',
            cache st0 = cache st ->
            fresh (cache st0 !! p) (makeEntryFile p mtime) = None ->
            makeSymbolsForDocument extract w (makeEntryFile p mtime) settings st0
            = (r, st') ->
            exists c' t', cache st' !! p = Some c' /\ ctime c' = Some t' /\ t <= t').
  { intros mtime st0 r st' Hst Hfresh Hm.
    rewrite Hst, Hc in Hfresh. unfold fresh in Hfresh. rewrite Ht in Hfresh.
    cbn [makeEntryFile file_ctime] in Hfresh.
    destruct (Z.leb_spec mtime t); [discriminate Hfresh|].
    apply makeSymbols_own_key in Hm as [Hsame|(t0 & Hk & Ht0)].
    - exists c, t. rewrite Hsame, Hst. auto with zarith.
    - cbn [makeEntryFile file_filepath file_ctime] in Hk, Ht0. rewrite Hdoc in Hk.
      exists t0, mtime. split; [exact Hk|]. split; [exact Ht0 | lia]. }
  split.
  - intros mtime r st'. unfold onFile, cache_get.
    cbn [entry_path entry_ctime makeEntryFile file_filepath].
    destruct (fresh (cache st !! p) _) eqn:Hf.
    + intros [= <- <-]. exists c, t. auto with zarith.
    + apply Hmk; [reflexivity | exact Hf].
  - intros o st'. unfold probe.
    destruct (statFile w p) as [ct|].
    + unfold cache_get. cbn [emit cache].
      destruct (fresh (cache st !! p) _) eqn:Hf.
      * intros [= <- <-]. exists c, t. cbn. auto with zarith.
      * destruct (makeSymbolsForDocument extract w _ settings _) as [r st2] eqn:Hm.
        intros H. assert (st' = st2) by (destruct r; congruence). subst st2.
        eapply Hmk; [| |exact Hm]; [reflexivity | exact Hf].
    + intros [= <- <-]. exists c, t. cbn. auto with zarith.
Qed.

(** *** Every table that is returned carries a time *)

Lemma makeSymbols_stamped (entry : IFile) (settings : ISettings) (st st' : State)
    (t : ISymbols) :
  makeSymbolsForDocument extract w entry settings st = (Resolved t, st') ->
  is_Some (ctime t).
Proof.
  unfold makeSymbolsForDocument.
  destruct (readFile w (file_filepath entry)) as [data|]; [|discriminate].
  destruct (parseDocument extract _ data settings) as [s|]; [|discriminate].
  intros [= <- <-]. eexists. reflexivity.
Qed.

Lemma fresh_stamped (cached : option ISymbols) (entry : IFile) (c : ISymbols) :
  fresh cached entry = Some c -> is_Some (ctime c).
Proof. intros H. apply fresh_Some in H as (_ & t & Ht & _). eexists. exact Ht. Qed.

Lemma probe_stamped (settings : ISettings) (p : string) (st st' : State)
    (t : ISymbols) :
  probe extract w settings p st = (Some t, st') -> is_Some (ctime t).
Proof.
  unfold probe. destruct (statFile w p) as [ct|]; [|discriminate].
  destruct (fresh _ _) as [c|] eqn:Hf.
  - intros [= <- <-]. eapply fresh_stamped, Hf.
  - destruct (makeSymbolsForDocument extract w _ settings _) as [[s|e] st2] eqn:Hm;
      [|discriminate].
    intros [= <- <-]. eapply makeSymbols_stamped, Hm.
Qed.

Lemma probeAll_stamped (settings : ISettings) (files : list string) (st st' : State)
    (l : list ISymbols) :
  probeAll extract w settings files st = (l, st') ->
  forall t, In t l -> is_Some (ctime t).
Proof.
  revert st st' l. induction files as [|f files IH]; intros st st' l; cbn [probeAll].
  - intros [= <- <-] t [].
  - destruct (probe extract w settings f st) as [o st1] eqn:Hp.
    destruct (probeAll extract w settings files st1) as [l' st2] eqn:Hall.
    intros [= <- <-] t Ht. destruct o as [s|].
    + destruct Ht as [<-|Ht]; [eapply probe_stamped, Hp | eapply IH; eassumption].
    + eapply IH; eassumption.
Qed.

Lemma recurse_stamped (fuel : nat) (symbolsList : list ISymbols)
    (settings : ISettings) (nesting nesting' : Z) (accum accum' lst : list ISymbols)
    (st st' : State) :
  recurse extract w fuel symbolsList settings nesting accum lst st
  = Some (accum', nesting', st') ->
  (forall t, In t accum -> is_Some (ctime t)) ->
  forall t, In t accum' -> is_Some (ctime t).
Proof.
  revert nesting accum lst st.
  induction fuel as [|fuel IH]; intros nesting accum lst st; [discriminate|].
  cbn [recurse]. destruct (_ || _); [intros [= <- <- <-]; auto|].
  destruct (importedFiles symbolsList lst) as [|f files]; [intros [= <- <- <-]; auto|].
  destruct (probeAll extract w settings (f :: files) st) as [resultList st1] eqn:Hp.
  intros Hr Hacc. eapply IH; [exact Hr|].
  intros t Ht. apply in_app_or in Ht as [Ht|Ht]; [auto|].
  eapply probeAll_stamped; eassumption.
Qed.

Lemma onFile_stamped (settings : ISettings) (stat : IEntry) (st st' : State)
    (t : ISymbols) :
  onFile extract w settings stat st = (Resolved t, st') -> is_Some (ctime t).
Proof.
  unfold onFile. destruct (fresh _ _) as [c|] eqn:Hf.
  - intros [= <- <-]. eapply fresh_stamped, Hf.
  - apply makeSymbols_stamped.
Qed.

Lemma runStream_stamped (settings : ISettings) (excl : option (list string))
    (items : list StreamItem) (settled settled' : option (Result (list ISymbols)))
    (st st' : State) (l : list (Result ISymbols)) :
  runStream extract w settings excl items settled st = (l, settled', st') ->
  forall t, In (Resolved t) l -> is_Some (ctime t).
Proof.
  revert settled settled' st st' l.
  induction items as [|[stat|err] items IH]; intros settled settled' st st' l;
    cbn [runStream].
  - intros [= <- <- <-] t [].
  - destruct (_ && _); [|apply IH].
    destruct (onFile extract w settings stat st) as [p st1] eqn:Hon.
    destruct (runStream extract w settings excl items settled st1)
      as [[ps s2] st2] eqn:Hrun.
    intros [= <- <- <-] t [->|Ht]; [eapply onFile_stamped, Hon | eapply IH; eassumption].
  - apply IH.
Qed.

Lemma promiseAll_Resolved {A : Type} (l : list (Result A)) (ps : list A) :
  promiseAll l = Resolved ps -> l = map Resolved ps.
Proof.
  revert ps. induction l as [|[a|e] l IH]; intros ps; cbn [promiseAll].
  - intros [= <-]. reflexivity.
  - destruct (promiseAll l) as [t|e]; [|discriminate].
    intros [= <-]. cbn. rewrite (IH t eq_refl). reflexivity.
  - discriminate.
Qed.

(** X7: every table that a resolved scan returns carries a time, whether it
    came from the cache or from the extractor, and whatever the cache held
    before: a table without a time is never taken from the cache. *)
Theorem returned_tables_carry_time (fuel : nat) (root : string)
    (settings : ISettings) (st st' : State) (r : list ISymbols) :
  scan_promise (doScanner extract w fuel root settings st) = Some (Resolved r, st') ->
  forall t, In t r -> is_Some (ctime t).
Proof.
  unfold doScanner.
  destruct (runStream extract w _ _ _ None st) as [[l settled] st1] eqn:Hrun.
  cbn [scan_promise].
  pose proof (runStream_stamped _ _ _ _ _ _ _ _ Hrun) as Hl.
  assert (Hset : forall (x : Result (list ISymbols)) (s0 : State) q,
            option_map (fun r0 => (r0, s0)) (settle settled x) = Some (Resolved r, st') ->
            (forall ps, x = Resolved ps -> forall t, In t ps -> q t) ->
            (forall ps, settled = Some (Resolved ps) -> forall t, In t ps -> q t) ->
            forall t, In t r -> q t).
  { intros x s0 q Hx Hq Hs. destruct settled as [[ps|e]|]; cbn in Hx.
    - injection Hx as Heq _. subst ps. apply (Hs r eq_refl).
    - discriminate Hx.
    - injection Hx as Heq _. apply (Hq r Heq). }
  assert (Hsettled : forall ps, settled = Some (Resolved ps) ->
            forall t, In t ps -> is_Some (ctime t)).
  { intros ps Hs. apply runStream_settled in Hrun. rewrite Hs in Hrun.
    destruct (showErrors _); [|discriminate Hrun].
    destruct (firstFailure _); discriminate Hrun. }
  destruct (promiseAll l) as [ps|e] eqn:Hall.
  - apply promiseAll_Resolved in Hall. subst l.
    assert (Hps : forall t, In t ps -> is_Some (ctime t)).
    { intros t Ht. apply Hl, in_map, Ht. }
    destruct (scanImportedFiles _).
    + destruct (scannerImportedFiles extract w fuel ps _ st1)
        as [[[imported n] st2]|] eqn:Hres; [|discriminate].
      intros H. eapply Hset; [exact H | | exact Hsettled].
      intros ps' [= <-] t Ht. apply in_app_or in Ht as [Ht|Ht]; [auto|].
      eapply (recurse_stamped _ _ _ _ _ [] _ _ _ _ Hres); [intros ? []|exact Ht].
    + intros H. eapply Hset; [exact H | | exact Hsettled].
      intros ps' [= <-] t Ht. rewrite app_nil_r in Ht. auto.
  - intros H.
    destruct (showErrors _).
    + destruct settled as [[ps|e']|]; cbn in H; try discriminate H.
      injection H as Heq _. subst ps. apply (Hsettled r eq_refl).
    + eapply Hset; [exact H | | exact Hsettled].
      intros ps' [= <-] t [].
Qed.

End CacheFacts.

(** ** The resolver and the cache *)

Section ResolverFacts.

Variable extract : string -> string -> ISettings -> option ISymbols.
Variable w : World.

Lemma probe_frame (settings : ISettings) (f : string) (st st' : State)
    (o : option ISymbols) (k : string) :
  probe extract w settings f st = (o, st') ->
  (is_Some (readFile w f) -> k <> documentPath f) ->
  cache st' !! k = cache st !! k.
Proof.
  unfold probe. destruct (statFile w f) as [ct|]; [|intros [= <- <-]; reflexivity].
  destruct (fresh _ _); [intros [= <- <-]; reflexivity|].
  destruct (makeSymbolsForDocument extract w _ settings _) as [r st2] eqn:Hm.
  intros H Hk. assert (st' = st2) by (destruct r; congruence). subst st2.
  destruct (readFile w f) as [data|] eqn:Hr.
  - rewrite (makeSymbols_key extract w _ _ _ _ _ k Hm); [reflexivity|].
    apply Hk. eexists. reflexivity.
  - unfold makeSymbolsForDocument in Hm. cbn [makeEntryFile file_filepath] in Hm.
    rewrite Hr in Hm. injection Hm as _ <-. reflexivity.
Qed.

(** X8: a wave of the resolver writes the cache only under the document
    paths of candidates that can be read: every other key holds after the
    wave what it held before; a candidate that does not exist or cannot be
    read changes nothing. *)
Theorem wave_writes_only_readable_candidates (settings : ISettings)
    (files : list string) (st st' : State) (l : list ISymbols) (k : string) :
  probeAll extract w settings files st = (l, st') ->
  (forall f, In f files -> is_Some (readFile w f) -> k <> documentPath f) ->
  cache st' !! k = cache st !! k.
Proof.
  revert st st' l. induction files as [|f files IH]; intros st st' l; cbn [probeAll].
  - intros [= <- <-] _. reflexivity.
  - destruct (probe extract w settings f st) as [o st1] eqn:Hp.
    destruct (probeAll extract w settings files st1) as [l' st2] eqn:Hall.
    intros [= <- <-] Hk.
    rewrite (IH _ _ _ Hall) by (intros f' Hf'; apply Hk; right; exact Hf').
    eapply probe_frame; [exact Hp|]. apply Hk. left. reflexivity.
Qed.

(** The file handler writes the cache only under the document path of
    its file, and only when the file can be read. *)
Lemma onFile_frame (settings : ISettings) (stat : IEntry) (st st' : State)
    (r : Result ISymbols) (k : string) :
  onFile extract w settings stat st = (r, st') ->
  (is_Some (readFile w (entry_path stat)) -> k <> documentPath (entry_path stat)) ->
  cache st' !! k = cache st !! k.
Proof.
  unfold onFile. cbn [makeEntryFile file_filepath].
  destruct (fresh _ _); [intros [= <- <-]; reflexivity|].
  intros Hm Hk.
  destruct (readFile w (entry_path stat)) as [data|] eqn:Hr.
  - rewrite (makeSymbols_key extract w _ _ _ _ _ k Hm); [reflexivity|].
    apply Hk. eexists. reflexivity.
  - unfold makeSymbolsForDocument in Hm. cbn [makeEntryFile file_filepath] in Hm.
    rewrite Hr in Hm. injection Hm as _ <-. reflexivity.
Qed.

Lemma timedFrom_probe (settings : ISettings) (p f : string) (t : Z)
    (st st' : State) (o : option ISymbols) :
  (is_Some (readFile w f) -> documentPath f = p -> f = p) ->
  timedFrom p t st ->
  probe extract w settings f st = (o, st') ->
  timedFrom p t st'.
Proof.
  intros Hown (c0 & t0 & Hc0 & Ht0 & Hle) Hp. unfold timedFrom.
  destruct (readFile w f) as [data|] eqn:Hr.
  - destruct (String.string_dec (documentPath f) p) as [Hd|Hd].
    + assert (f = p) by (apply Hown; [eexists; reflexivity | exact Hd]). subst f.
      destruct (proj2 (own_key_step extract w settings p st c0 t0 Hd Hc0 Ht0) o st' Hp)
        as (c1 & t1 & Hc1 & Ht1 & Hle1).
      exists c1, t1. split; [exact Hc1|]. split; [exact Ht1 | lia].
    + exists c0, t0. rewrite (probe_frame settings f st st' o p Hp) by congruence.
      auto.
  - exists c0, t0. rewrite (probe_frame settings f st st' o p Hp).
    + auto.
    + rewrite Hr. intros [x Hx]. discriminate Hx.
Qed.

Lemma timedFrom_onFile (settings : ISettings) (p : string) (stat : IEntry) (t : Z)
    (st st' : State) (r : Result ISymbols) :
  entry_isFile stat = true ->
  (is_Some (readFile w (entry_path stat)) ->
   documentPath (entry_path stat) = p -> entry_path stat = p) ->
  timedFrom p t st ->
  onFile extract w settings stat st = (r, st') ->
  timedFrom p t st'.
Proof.
  intros Hfile Hown (c0 & t0 & Hc0 & Ht0 & Hle) Hp. unfold timedFrom.
  destruct (readFile w (entry_path stat)) as [data|] eqn:Hr.
  - destruct (String.string_dec (documentPath (entry_path stat)) p) as [Hd|Hd].
    + assert (Hpath : entry_path stat = p)
        by (apply Hown; [eexists; reflexivity | exact Hd]).
      destruct stat as [path isf mtime]. cbn [entry_path entry_isFile] in *.
      subst path isf.
      destruct (proj1 (own_key_step extract w settings p st c0 t0 Hd Hc0 Ht0) mtime r st' Hp)
        as (c1 & t1 & Hc1 & Ht1 & Hle1).
      exists c1, t1. split; [exact Hc1|]. split; [exact Ht1 | lia].
    + exists c0, t0. rewrite (onFile_frame settings stat st st' r p Hp) by congruence.
      auto.
  - exists c0, t0. rewrite (onFile_frame settings stat st st' r p Hp).
    + auto.
    + rewrite Hr. intros [x Hx]. discriminate Hx.
Qed.

(** X6: the time recorded in the cache under a path [p] does not go back
    over a whole wave of the resolver, nor over the whole project pass, as
    long as [p] itself is the only readable file handled there whose
    document path is [p]: whatever happens to the files, hit, new
    extraction or failure, the entry under [p] is still there afterwards,
    with a time that is not older.  (The condition leaves out the partial
    [_p] next to a file [p]: its table is stored under [p] as well, with
    the time of the partial.) *)
Theorem own_entry_time_never_goes_back (settings : ISettings) (p : string)
    (st : State) (c : ISymbols) (t : Z) :
  cache st !! p = Some c -> ctime c = Some t ->
  (forall files l st',
     (forall f, In f files -> is_Some (readFile w f) -> documentPath f = p -> f = p) ->
     probeAll extract w settings files st = (l, st') ->
     exists c' t', cache st' !! p = Some c' /\ ctime c' = Some t' /\ t <= t')
  /\ (forall excl items settled l settled' st',
        (forall stat, In (Found stat) items ->
           is_Some (readFile w (entry_path stat)) ->
           documentPath (entry_path stat) = p -> entry_path stat = p) ->
        runStream extract w settings excl items settled st = (l, settled', st') ->
        exists c' t', cache st' !! p = Some c' /\ ctime c' = Some t' /\ t <= t').
Proof.
  intros Hc Ht.
  assert (H0 : timedFrom p t st) by (exists c, t; auto with zarith).
  clear Hc Ht. split.
  - intros files. revert st H0.
    induction files as [|f files IH]; intros st H0 l st' Hown; cbn [probeAll].
    + intros [= <- <-]. exact H0.
    + destruct (probe extract w settings f st) as [o st1] eqn:Hp.
      destruct (probeAll extract w settings files st1) as [l' st2] eqn:Hall.
      intros [= <- <-].
      apply (IH st1) with (l := l'); [| |exact Hall].
      * eapply timedFrom_probe; [|exact H0|exact Hp]. apply Hown. left. reflexivity.
      * intros f' Hf'. apply Hown. right. exact Hf'.
  - intros excl items. revert st H0.
    induction items as [|[stat|err] items IH]; intros st H0 settled l settled' st' Hown;
      cbn [runStream].
    + intros [= <- <- <-]. exact H0.
    + destruct (scannerFilter stat excl && entry_isFile stat) eqn:Hf.
      * apply andb_true_iff in Hf as [_ Hfile].
        destruct (onFile extract w settings stat st) as [r st1] eqn:Hp.
        destruct (runStream extract w settings excl items settled st1)
          as [[ps settled1] st2] eqn:Hall.
        intros [= <- <- <-].
        apply (IH st1) with (settled := settled) (l := ps) (settled' := settled1);
          [| |exact Hall].
        -- eapply timedFrom_onFile; [exact Hfile| |exact H0|exact Hp].
           apply Hown. left. reflexivity.
        -- intros stat' Hs'. apply Hown. right. exact Hs'.
      * apply IH; [exact H0|]. intros stat' Hs'. apply Hown. right. exact Hs'.
    + apply IH; [exact H0|]. intros stat' Hs'. apply Hown. right. exact Hs'.
Qed.

Lemma importedFiles_nil (symbolsList lst : list ISymbols) :
  (forall item x, In item lst -> In x (imports item) ->
     imp_dynamic x = true \/ imp_css x = true
     \/ exists s, In s symbolsList /\ document s = imp_filepath x) ->
  importedFiles symbolsList lst = [].
Proof.
  intros H. unfold importedFiles.
  induction lst as [|item lst IH]; [reflexivity|].
  cbn [flat_map]. rewrite IH by (intros i x Hi; apply H; right; exact Hi).
  rewrite app_nil_r.
  assert (Hitem : forall x, In x (imports item) ->
            importCandidates symbolsList x = []).
  { intros x Hx. destruct (H item x (or_introl eq_refl) Hx) as [Hd|[Hc|(s & Hs & Hdoc)]].
    - unfold importCandidates. rewrite Hd. reflexivity.
    - unfold importCandidates. rewrite Hc, orb_true_r. reflexivity.
    - eapply importCandidates_known; eassumption. }
  induction (imports item) as [|x xs IHx]; [reflexivity|].
  cbn [flat_map]. rewrite Hitem by (left; reflexivity).
  apply IHx. intros y Hy. apply Hitem. right. exact Hy.
Qed.

(** X12: when every import of the project tables is dynamic, a css import
    or an import of a project document, import resolution returns no table
    and makes no call at all, for every depth, a negative one included. *)
Theorem self_contained_project_unprobed (fuel : nat) (symbolsList : list ISymbols)
    (settings : ISettings) (st : State) :
  (forall item x, In item symbolsList -> In x (imports item) ->
     imp_dynamic x = true \/ imp_css x = true
     \/ exists s, In s symbolsList /\ document s = imp_filepath x) ->
  scannerImportedFiles extract w (S fuel) symbolsList settings st = Some ([], 0, st).
Proof.
  intros H. unfold scannerImportedFiles. cbn [recurse].
  rewrite (importedFiles_nil _ _ H). destruct (_ || _); reflexivity.
Qed.

(** The partial-file sibling of a path. *)
Lemma partialPath_prefix (pre rest : string) :
  dirPrefix pre -> Str.mem Str.slash rest = false -> rest <> "" ->
  partialPath (pre +:+ rest) = pre +:+ "_" +:+ rest.
Proof.
  intros [->|(d & Hd & ->)] Hm Hne.
  - rewrite !append_nil_l. unfold partialPath.
    destruct rest as [|c r]; [congruence|].
    cbn [Path.parse].
    assert (Hc : Ascii.eqb c Str.slash = false).
    { cbn [Str.mem] in Hm. apply orb_false_elim in Hm as [Hm _].
      rewrite Ascii.eqb_sym. exact Hm. }
    rewrite Hc. rewrite strip_trailing_absent, split_last_absent by exact Hm.
    destruct (Path.name_ext (String c r)) as [n e].
    unfold Path.format. reflexivity.
  - rewrite !append_assoc.
    destruct (parse_dir_base d rest Hm Hne Hd) as (e & n & Hp).
    unfold partialPath. rewrite Hp.
    cbn [Path.base Path.with_base Path.root Path.dir Path.ext Path.name].
    destruct (String.eqb_spec d "") as [->|Hd0].
    + change (Path.format (Path.mkParsed "/" "/" ("_" +:+ rest) e n)
              = "/" +:+ "_" +:+ rest).
      apply format_root_base. discriminate.
    + apply format_dir_base; [assumption | discriminate |].
      destruct d as [|a d]; [congruence|]. cbn [Str.starts_with_char].
      destruct (Ascii.eqb_spec Str.slash a) as [<-|]; cbn; [exact Hd | congruence].
Qed.

(** X14: when an import names [p] and only the partial [_p] is on disk, the
    probe of the sibling path returns a table whose document is the path
    [p] of the import record, stamped with the time of the partial, and the
    cache gets it under [p]: the sibling path and the renaming of the
    extractor undo each other. *)
Theorem partial_sibling_stored_as_import (pre rest data : string) (ct : Z)
    (s : ISymbols) (settings : ISettings) (st : State) :
  dirPrefix pre -> Str.mem Str.slash rest = false -> rest <> "" ->
  fs w !! partialPath (pre +:+ rest) = Some (mkNode ct (Some data)) ->
  cache st !! partialPath (pre +:+ rest) = None ->
  extract (pre +:+ rest) data settings = Some s ->
  documentPath (partialPath (pre +:+ rest)) = pre +:+ rest
  /\ exists t st',
       probe extract w settings (partialPath (pre +:+ rest)) st = (Some t, st')
       /\ document t = pre +:+ rest
       /\ ctime t = Some ct
       /\ cache st' !! (pre +:+ rest) = Some t.
Proof.
  intros Hpre Hm Hne Hfs Hc He.
  assert (Hdoc : documentPath (partialPath (pre +:+ rest)) = pre +:+ rest).
  { rewrite partialPath_prefix by assumption.
    apply documentPath_underscore; assumption. }
  split; [exact Hdoc|].
  unfold probe, statFile. rewrite Hfs. cbn [fmap option_fmap option_map node_ctime].
  unfold cache_get. cbn [emit cache]. rewrite Hc. cbn [fresh].
  rewrite (makeSymbols_resolved extract w _ settings _ data s);
    cbn [makeEntryFile file_filepath file_ctime].
  - rewrite Hdoc. eexists _, _. split; [reflexivity|].
    split; [reflexivity|]. split; [reflexivity|].
    cbn [cache_set cache]. apply lookup_insert_eq.
  - unfold readFile. rewrite Hfs. reflexivity.
  - rewrite Hdoc. exact He.
Qed.

End ResolverFacts.

(** ** The further properties on the examples *)

Lemma project_pass_calls_witness :
  length (fst (fst (runStream Fixture.extract Sample.w_mixed (Fixture.settings [] 1 false)
                      (Some []) (readdirStreamStat Sample.w_mixed "/r" 20) None
                      Fixture.empty)))
  = length (acceptedFiles (Some []) (readdirStreamStat Sample.w_mixed "/r" 20))
  /\ acceptedFiles (Some []) (readdirStreamStat Sample.w_mixed "/r" 20)
     = [mkEntry "/r/a.scss" true 5].
Proof.
  split; [|reflexivity].
  refine (proj1 (project_pass_calls Fixture.extract Sample.w_mixed
                   (Fixture.settings [] 1 false) (Some [])
                   (readdirStreamStat Sample.w_mixed "/r" 20) None _ Fixture.empty _ _ _)).
  vm_compute. reflexivity.
Defined.

Lemma project_pass_served_from_cache_witness :
  exists cs settled',
    runStream Fixture.extract Sample.w_mixed (Fixture.settings [] 1 false) (Some [])
      (readdirStreamStat Sample.w_mixed "/r" 20) None (Sample.cached_a 5)
    = (map Resolved cs, settled', Sample.cached_a 5)
    /\ Forall2 (fun stat c => cache (Sample.cached_a 5) !! entry_path stat = Some c)
         (acceptedFiles (Some []) (readdirStreamStat Sample.w_mixed "/r" 20)) cs.
Proof.
  apply (project_pass_served_from_cache Fixture.extract Sample.w_mixed).
  intros stat [<-|[]]. exists (Sample.table_a 5). split; [reflexivity|].
  exists 5. split; [reflexivity | cbn; lia].
Defined.

Lemma probe_hit_witness :
  probe Fixture.extract Sample.w_mixed (Fixture.settings [] 1 false) "/r/a.scss"
    (Sample.cached_a 9)
  = (Some (Sample.table_a 9), emit (EvStat "/r/a.scss") (Sample.cached_a 9)).
Proof.
  apply (probe_hit Fixture.extract Sample.w_mixed (Fixture.settings [] 1 false)
           "/r/a.scss" (Sample.cached_a 9) (Sample.table_a 9) 9 5).
  - reflexivity.
  - reflexivity.
  - reflexivity.
  - lia.
Defined.

Lemma stale_entry_extracted_again_witness :
  exists t' st',
    onFile Fixture.extract Sample.w_mixed (Fixture.settings [] 1 false)
      (mkEntry "/r/a.scss" true 5) Sample.cached_a_untimed
    = (Resolved t', st')
    /\ ctime t' = Some 5
    /\ cache st' !! "/r/a.scss" = Some t'.
Proof.
  destruct (stale_entry_extracted_again Fixture.extract Sample.w_mixed
              (Fixture.settings [] 1 false) (mkEntry "/r/a.scss" true 5)
              Sample.cached_a_untimed
              (mkSymbols "/r/a.scss" [] [] [] [] None)
              (mkSymbols "/r/a.scss" [] [] [] [] None) "$x: 1;")
    as (t' & st' & Hon & _ & Ht & _ & _ & Hc & _).
  - reflexivity.
  - left. reflexivity.
  - vm_compute. reflexivity.
  - vm_compute. reflexivity.
  - exists t', st'. split; [exact Hon|]. split; [exact Ht|].
    rewrite Hc. apply lookup_insert_eq.
Defined.

Lemma own_entry_time_never_goes_back_witness :
  exists c' t',
    cache (snd (probeAll Fixture.extract Sample.w_mixed (Fixture.settings [] 1 false)
                  ["/r/a.scss"; "/r/_a.scss"; "/r/notes.txt"] (Sample.cached_a 3)))
      !! "/r/a.scss"
    = Some c'
    /\ ctime c' = Some t' /\ 3 <= t'.
Proof.
  refine (proj1 (own_entry_time_never_goes_back Fixture.extract Sample.w_mixed
                   (Fixture.settings [] 1 false) "/r/a.scss" (Sample.cached_a 3)
                   (Sample.table_a 3) 3 eq_refl eq_refl)
            ["/r/a.scss"; "/r/_a.scss"; "/r/notes.txt"] _ _ _ _).
  - intros f [<-|[<-|[<-|[]]]] Hr Hd.
    + reflexivity.
    + vm_compute in Hr. destruct Hr as [x Hx]. discriminate Hx.
    + vm_compute in Hd. discriminate Hd.
  - apply surjective_pairing.
Defined.

(** The condition of [own_entry_time_never_goes_back] is needed: with a
    file [p.scss] cached at the time 9 and an older partial [_p.scss] next
    to it, the probe of the partial in the same wave stores the table of
    the partial under [p.scss], with the time 7. *)
Example sibling_partial_lowers_time :
  cache (snd (probeAll Fixture.extract Sample.w_both (Fixture.settings [] 1 false)
                ["/r/p.scss"; "/r/_p.scss"] Sample.cached_p)) !! "/r/p.scss"
  = Some (mkSymbols "/r/p.scss" [] [] [] [] (Some 7)).
Proof. vm_compute. reflexivity. Qed.

Lemma returned_tables_carry_time_witness :
  is_Some (ctime (mkSymbols "/r/a.scss" [] [] []
                    [mkImport "/r/b.scss" false false] (Some 5)))
  /\ is_Some (ctime (mkSymbols "/r/b.scss" [] [] [] [] (Some 7))).
Proof.
  assert (H : scan_promise (doScanner Fixture.extract Fixture.w_partial 3 "/r"
                              (Fixture.settings [] 1 false) Fixture.empty)
              = Some (Resolved
                        [mkSymbols "/r/a.scss" [] [] []
                           [mkImport "/r/b.scss" false false] (Some 5);
                         mkSymbols "/r/b.scss" [] [] [] [] (Some 7)],
                      mkState
                        (<["/r/b.scss" := mkSymbols "/r/b.scss" [] [] [] [] (Some 7)]>
                           (<["/r/a.scss" := mkSymbols "/r/a.scss" [] [] []
                                [mkImport "/r/b.scss" false false] (Some 5)]> ∅))
                        [EvRead "/r/a.scss"; EvParse "/r/a.scss";
                         EvRead "/r/_b.scss"; EvParse "/r/b.scss"]))
    by (vm_compute; reflexivity).
  split.
  - apply (returned_tables_carry_time _ _ _ _ _ _ _ _ H). left. reflexivity.
  - apply (returned_tables_carry_time _ _ _ _ _ _ _ _ H). right. left. reflexivity.
Defined.

Lemma wave_writes_only_readable_candidates_witness :
  cache (snd (probeAll Fixture.extract Fixture.w_lib_partial
                (Fixture.settings ["**/lib"] 1 false)
                ["/r/lib/b.scss"; "/r/lib/_b.scss"] Fixture.empty)) !! "/r/lib/_b.scss"
  = cache Fixture.empty !! "/r/lib/_b.scss".
Proof.
  refine (wave_writes_only_readable_candidates Fixture.extract Fixture.w_lib_partial
            (Fixture.settings ["**/lib"] 1 false)
            ["/r/lib/b.scss"; "/r/lib/_b.scss"] Fixture.empty _ _ "/r/lib/_b.scss" _ _).
  - vm_compute. reflexivity.
  - intros f [<-|[<-|[]]] Hr.
    + vm_compute in Hr. destruct Hr as [x Hx]. discriminate Hx.
    + vm_compute. discriminate.
Defined.

Lemma strict_unreadable_file_rejects_witness :
  scan_result (doScanner Fixture.extract Fixture.w_unreadable 3 "/w"
                 (Fixture.settings [] 1 true) Fixture.empty)
  = Some (Rejected (ReadError "/w/b.scss")).
Proof.
  apply (strict_unreadable_file_rejects Fixture.extract Fixture.w_unreadable
           (Fixture.settings [] 1 true) "/w" Fixture.empty 3
           "/w/a.scss" "/w/b.scss" "$x: 1;" 10 10
           (mkSymbols "/w/a.scss" [] [] [] [] None)).
  - reflexivity.
  - reflexivity.
  - reflexivity.
  - reflexivity.
  - reflexivity.
  - reflexivity.
  - discriminate.
  - vm_compute. reflexivity.
  - vm_compute. reflexivity.
  - vm_compute. reflexivity.
Defined.

Lemma strict_stream_error_rejects_witness :
  scan_result (doScanner Fixture.extract Sample.w_errors 3 "/r"
                 (Fixture.settings [] 1 true) Fixture.empty)
  = Some (Rejected (WalkError "/r/locked")).
Proof.
  apply (strict_stream_error_rejects Fixture.extract Sample.w_errors 3 "/r"
           (Fixture.settings [] 1 true) Fixture.empty (WalkError "/r/locked")).
  - reflexivity.
  - reflexivity.
  - cbn. lia.
  - cbn. lia.
Defined.

Lemma lenient_stream_errors_ignored_witness :
  doScanner Fixture.extract Fixture.w_partial 3 "/r" (Fixture.settings [] 1 false)
    Fixture.empty
  = doScanner Fixture.extract Sample.w_errors 3 "/r" (Fixture.settings [] 1 false)
      Fixture.empty.
Proof.
  apply (lenient_stream_errors_ignored Fixture.extract Sample.w_errors Fixture.w_partial).
  - reflexivity.
  - reflexivity.
  - reflexivity.
Defined.

Lemma self_contained_project_unprobed_witness :
  scannerImportedFiles Fixture.extract Fixture.w_mutual 1 Fixture.project_mutual
    (Fixture.settings [] (-1) false) Fixture.empty
  = Some ([], 0, Fixture.empty).
Proof.
  apply (self_contained_project_unprobed Fixture.extract Fixture.w_mutual 0
           Fixture.project_mutual (Fixture.settings [] (-1) false) Fixture.empty).
  intros item x [<-|[<-|[]]] [<-|[]]; right; right.
  - exists (Fixture.table "/r/q.scss" 5 "/r/p.scss"). split; [right; left|]; reflexivity.
  - exists (Fixture.table "/r/p.scss" 5 "/r/q.scss"). split; [left|]; reflexivity.
Defined.

Lemma partial_sibling_stored_as_import_witness :
  documentPath (partialPath "/r/lib/b.scss") = "/r/lib/b.scss"
  /\ exists t st',
       probe Fixture.extract Fixture.w_lib_partial (Fixture.settings ["**/lib"] 1 false)
         (partialPath "/r/lib/b.scss") Fixture.empty = (Some t, st')
       /\ document t = "/r/lib/b.scss"
       /\ ctime t = Some 7
       /\ cache st' !! "/r/lib/b.scss" = Some t.
Proof.
  apply (partial_sibling_stored_as_import Fixture.extract Fixture.w_lib_partial
           "/r/lib/" "b.scss" "$c: red;" 7 (mkSymbols "/r/lib/b.scss" [] [] [] [] None)).
  - right. exists "/r/lib". split; [discriminate | reflexivity].
  - reflexivity.
  - discriminate.
  - vm_compute. reflexivity.
  - reflexivity.
  - vm_compute. reflexivity.
Defined.


(** ** The shape of the result *)

Section ResultShape.

Variable extract : string -> string -> ISettings -> option ISymbols.
Variable w : World.

Lemma runStream_length (settings : ISettings) (excl : option (list string))
    (items : list StreamItem) (settled : option (Result (list ISymbols))) (st : State) :
  length (fst (fst (runStream extract w settings excl items settled st)))
  = length (acceptedFiles excl items).
Proof.
  revert settled st. induction items as [|[stat|err] items IH]; intros settled st;
    cbn [runStream acceptedFiles]; [reflexivity | | apply IH].
  destruct (_ && _); [|apply IH].
  destruct (onFile extract w settings stat st) as [p st1].
  specialize (IH settled st1).
  destruct (runStream extract w settings excl items settled st1) as [[ps s2] st2].
  cbn [fst length] in *. rewrite IH. reflexivity.
Qed.

Lemma promiseAll_length {A : Type} (l : list (Result A)) (ps : list A) :
  promiseAll l = Resolved ps -> length ps = length l.
Proof.
  intros H. apply promiseAll_Resolved in H. subst l. rewrite length_map. reflexivity.
Qed.

(** X18: a scan that resolves returns either nothing at all, or one table
    for each file that the stream let through, followed by the tables of
    the import resolution; without [scanImportedFiles] nothing follows
    them. *)
Theorem resolved_result_shape (fuel : nat) (root : string) (settings : ISettings)
    (st st' : State) (r : list ISymbols) :
  scan_promise (doScanner extract w fuel root settings st) = Some (Resolved r, st') ->
  r = []
  \/ exists projectSymbols importedSymbols,
       r = (projectSymbols ++ importedSymbols)%list
       /\ length projectSymbols
          = length (acceptedFiles (expandExclude <$> scannerExclude settings)
                      (readdirStreamStat w root (scannerDepth settings)))
       /\ (scanImportedFiles settings = false -> importedSymbols = []).
Proof.
  unfold doScanner. cbn [scannerDepth set_scannerExclude].
  pose proof (runStream_length
                (set_scannerExclude (expandExclude <$> scannerExclude settings) settings)
                (expandExclude <$> scannerExclude settings)
                (readdirStreamStat w root (scannerDepth settings)) None st) as Hlen.
  destruct (runStream extract w _ _ _ None st) as [[l settled] st1] eqn:Hrun.
  cbn [fst] in Hlen. cbn [scan_promise].
  apply runStream_settled in Hrun.
  assert (Hsettle : forall x s0,
            option_map (fun r0 => (r0, s0)) (settle settled x) = Some (Resolved r, st') ->
            x = Resolved r).
  { intros x s0 Hx. rewrite Hrun in Hx. cbn [showErrors set_scannerExclude] in Hx.
    destruct (showErrors settings); [destruct (firstFailure _)|]; cbn in Hx;
      congruence. }
  destruct (promiseAll l) as [ps|e] eqn:Hall.
  - apply promiseAll_length in Hall.
    cbn [scanImportedFiles set_scannerExclude].
    destruct (scanImportedFiles settings).
    + destruct (scannerImportedFiles extract w fuel ps _ st1)
        as [[[imported n] st2]|]; [|discriminate].
      intros H. apply Hsettle in H. injection H as <-.
      right. exists ps, imported. split; [reflexivity|].
      split; [congruence | discriminate].
    + intros H. apply Hsettle in H. injection H as <-.
      right. exists ps, []. split; [reflexivity|]. split; [congruence | reflexivity].
  - cbn [showErrors set_scannerExclude]. intros H. left.
    destruct (showErrors settings) eqn:Hshow.
    + rewrite Hrun in H. cbn [showErrors set_scannerExclude] in H.
      rewrite Hshow in H. destruct (firstFailure _); cbn in H; discriminate H.
    + apply Hsettle in H. injection H as <-. reflexivity.
Qed.

End ResultShape.

Lemma resolved_result_shape_witness :
  [mkSymbols "/r/a.scss" [] [] [] [mkImport "/r/lib/b.scss" false false] (Some 5);
   mkSymbols "/r/lib/b.scss" [] [] [] [] (Some 7)] = []
  \/ exists projectSymbols importedSymbols,
       [mkSymbols "/r/a.scss" [] [] [] [mkImport "/r/lib/b.scss" false false] (Some 5);
        mkSymbols "/r/lib/b.scss" [] [] [] [] (Some 7)]
       = (projectSymbols ++ importedSymbols)%list
       /\ length projectSymbols
          = length (acceptedFiles (Some ["**/lib"; "**/lib/**"])
                      (readdirStreamStat Fixture.w_lib_partial "/r" 20))
       /\ (true = false -> importedSymbols = []).
Proof.
  refine (resolved_result_shape Fixture.extract Fixture.w_lib_partial 3 "/r"
            (Fixture.settings ["**/lib"] 1 false) Fixture.empty _ _ _).
  vm_compute. reflexivity.
Defined.
